(** * prepare_jvm_release: a shallow embedding of dev/prepare_jvm_release.py

    The script is a linear pipeline of file copies, directory creations,
    subprocess calls and downloads.  This development embeds it in three layers:

    - [PyStr]: the operations of Python's [str] the script uses;
    - [posixpath]: the functions of [os.path] the script uses, as CPython's
      [posixpath.py] defines them (the host is taken to be a POSIX system);
    - the script itself, in a state-and-exception monad over a model of the
      process: a file system, the working directory and a log of the
      primitive calls (prints included) in the order the interpreter makes
      them.

    Whatever lies outside the process (the network, the programs run through
    [subprocess], the zip format, the random names of [tempfile]) is a field
    of an [Env] record the script is parameterised by. *)

From Stdlib Require Import Ascii String.
From stdpp Require Import base option list strings gmap fin_maps.



(** ** Python strings *)

Module PyStr.

(** [s.startswith(p)] *)
Fixpoint startswith (p s : string) : bool :=
  match p, s with
  | EmptyString, _ => true
  | String a p', String b s' => if Ascii.eqb a b then startswith p' s' else false
  | String _ _, EmptyString => false
  end.

(** The last character of [s], if any. *)
Fixpoint last_char (s : string) : option ascii :=
  match s with
  | EmptyString => None
  | String c EmptyString => Some c
  | String _ s' => last_char s'
  end.

(** [s.endswith(c)] for a one-character [c]. *)
Definition endswith_char (c : ascii) (s : string) : bool :=
  match last_char s with
  | Some d => Ascii.eqb c d
  | None => false
  end.

(** [s.split(c)] for a one-character separator: never the empty list. *)
Fixpoint split (c : ascii) (s : string) : list string :=
  match s with
  | EmptyString => [EmptyString]
  | String a s' =>
      if Ascii.eqb a c then EmptyString :: split c s'
      else match split c s' with
           | h :: t => String a h :: t
           | [] => [String a EmptyString]
           end
  end.

(** [sep.join(l)] *)
Fixpoint join (sep : string) (l : list string) : string :=
  match l with
  | [] => EmptyString
  | [x] => x
  | x :: l' => x +:+ sep +:+ join sep l'
  end.

(** [s.rstrip(c)] for a one-character [c]. *)
Fixpoint rstrip (c : ascii) (s : string) : string :=
  match s with
  | EmptyString => EmptyString
  | String a s' =>
      match rstrip c s' with
      | EmptyString => if Ascii.eqb a c then EmptyString else String a EmptyString
      | r => String a r
      end
  end.

(** [c in s] *)
Fixpoint contains_char (c : ascii) (s : string) : bool :=
  match s with
  | EmptyString => false
  | String a s' => Ascii.eqb a c || contains_char c s'
  end.

(** [p in s] (substring test) *)
Fixpoint contains (p s : string) : bool :=
  startswith p s ||
  match s with
  | EmptyString => false
  | String _ s' => contains p s'
  end.

(** [s.rfind(c) + 1] for a one-character [c]: the length of the longest
    prefix of [s] that ends with [c], 0 when [c] does not occur. *)
Fixpoint rfind_succ (c : ascii) (s : string) : nat :=
  match s with
  | EmptyString => 0
  | String a s' =>
      match rfind_succ c s' with
      | 0 => if Ascii.eqb a c then 1 else 0
      | S n => S (S n)
      end
  end.

(** [s[:n]] and [s[n:]] *)
Fixpoint take (n : nat) (s : string) : string :=
  match n, s with
  | S n', String a s' => String a (take n' s')
  | _, _ => EmptyString
  end.

Fixpoint drop (n : nat) (s : string) : string :=
  match n, s with
  | S n', String _ s' => drop n' s'
  | _, _ => s
  end.

(** [s == c * len(s)]: every character of [s] is [c]. *)
Fixpoint all_char (c : ascii) (s : string) : bool :=
  match s with
  | EmptyString => true
  | String a s' => Ascii.eqb a c && all_char c s'
  end.

End PyStr.

(** ** os.path on a POSIX host (CPython's posixpath.py) *)

Module posixpath.

Definition sep : ascii := "/"%char.

(** [isabs(s)]: [s.startswith('/')] *)
Definition isabs (s : string) : bool := PyStr.startswith "/" s.

(** One iteration of the loop of [join(a, *p)]:
    [if b.startswith(sep): path = b
     elif not path or path.endswith(sep): path += b
     else: path += sep + b] *)
Definition join_step (path b : string) : string :=
  if PyStr.startswith "/" b then b
  else if bool_decide (path = "") || PyStr.endswith_char sep path then path +:+ b
  else path +:+ "/" +:+ b.

Definition join (a : string) (p : list string) : string :=
  fold_left join_step p a.

(** [split(p)]: head and tail around the last slash; trailing slashes of the
    head are stripped unless it consists of slashes only. *)
Definition split (p : string) : string * string :=
  let i := PyStr.rfind_succ sep p in
  let head := PyStr.take i p in
  let tail := PyStr.drop i p in
  let head :=
    if negb (bool_decide (head = "")) && negb (PyStr.all_char sep head)
    then PyStr.rstrip sep head else head in
  (head, tail).

(** [basename(p)]: [p[p.rfind('/') + 1:]] *)
Definition basename (p : string) : string :=
  PyStr.drop (PyStr.rfind_succ sep p) p.

(** The loop of [normpath] over the components, [new_comps] kept reversed. *)
Fixpoint normpath_comps (initial_slashes : nat) (comps new_comps : list string)
  : list string :=
  match comps with
  | [] => rev new_comps
  | comp :: comps' =>
      if bool_decide (comp = "") || bool_decide (comp = ".")
      then normpath_comps initial_slashes comps' new_comps
      else if negb (bool_decide (comp = ".."))
              || (Nat.eqb initial_slashes 0 && bool_decide (new_comps = []))
              || match new_comps with
                 | last :: _ => bool_decide (last = "..")
                 | [] => false
                 end
      then normpath_comps initial_slashes comps' (comp :: new_comps)
      else normpath_comps initial_slashes comps' (tl new_comps)
  end.

(** [posixpath.normpath(path)] (not the script's [normpath]). *)
Definition normpath (path : string) : string :=
  if bool_decide (path = "") then "."
  else
    let initial_slashes :=
      if PyStr.startswith "/" path then
        if PyStr.startswith "//" path && negb (PyStr.startswith "///" path)
        then 2 else 1
      else 0 in
    let comps := normpath_comps initial_slashes (PyStr.split sep path) [] in
    let path' := PyStr.join "/" comps in
    let path' :=
      match initial_slashes with
      | 0 => path'
      | 1 => "/" +:+ path'
      | _ => "//" +:+ path'
      end in
    if bool_decide (path' = "") then "." else path'.

(** [abspath(path)], the working directory [cwd] being what [os.getcwd()]
    returns; it is consulted for a relative [path] only. *)
Definition abspath (cwd path : string) : string :=
  if isabs path then normpath path else normpath (join cwd [path]).

End posixpath.

(** ** The script: path normalisation *)

(** [normpath(path)] of the script.  [os.path.abspath("/")] does not depend on
    the working directory, "/" being absolute; [posixpath.abspath] is given
    the empty string in its place. *)
Definition normpath (path : string) : string :=
  let normalized :=
    match PyStr.split "/" path with
    | a :: p => posixpath.join a p
    | [] => ""
    end in
  if posixpath.isabs path
  then posixpath.abspath "" "/" +:+ normalized
  else normalized.


(** ** The process: file system, working directory, log *)

(** A file-system node: a regular file with its content, or a directory.
    Symbolic links, permissions and special files are not modelled. *)
Inductive node :=
  | File (data : string)
  | Dir.

(** The error numbers the modelled system calls produce. *)
Inductive errno := ENOENT | ENOTDIR | EEXIST | EISDIR.

#[global] Instance errno_eq_dec : EqDecision errno.
Proof. solve_decision. Defined.

(** Python exceptions, with what the script or a claim can observe of them. *)
Inductive exn :=
  | OSError (e : errno) (filename : string)
  | SameFileError (src dst : string)
  | ValueError (msg : string)
  | CalledProcessError (returncode : Z) (cmd : string)
  | URLError (url : string)
  | BadZipFile (filename : string)
  | SystemExit (code : Z)
  | RecursionError.

(** The calls the script's own text makes, logged in program order. *)
Inductive event :=
  | Print (line : string)
  | Chdir (path : string)
  | Getcwd
  | Copy (src dst : string)
  | Makedirs (name : string)
  | Mkdir (name : string)
  | Glob (pathname : string)
  | CheckCall (cmd : string)
  | CheckOutput (argv : list string)
  | Urlretrieve (url filename : string)
  | Mkdtemp
  | Cleanup (name : string)
  | ZipOpen (file : string)
  | Extractall (dir : string).

(** Nodes are keyed by their absolute path, as the list of component names
    from the root; the root itself is always a directory. *)
Record World := mkWorld {
  fs : gmap (list string) node;
  cwd : list string;
  log : list event
}.

Definition set_fs (m : gmap (list string) node) (w : World) : World :=
  mkWorld m (cwd w) (log w).
Definition set_cwd (p : list string) (w : World) : World :=
  mkWorld (fs w) p (log w).
Definition log_event (ev : event) (w : World) : World :=
  mkWorld (fs w) (cwd w) (log w ++ [ev]).

(** ** System calls on the file-system model *)

Module Sys.

Definition lookup_node (m : gmap (list string) node) (p : list string)
  : option node :=
  match p with
  | [] => Some Dir
  | _ => m !! p
  end.

(** One component of a path name: the empty name and "." stay, ".." goes to
    the parent (the root is its own parent), a name goes down. *)
Definition walk_step (c : string) (cur : list string) : list string :=
  if bool_decide (c = "") || bool_decide (c = ".") then cur
  else if bool_decide (c = "..") then removelast cur
  else cur ++ [c].

(** Path-name resolution: every component is looked up in a node that must
    be a directory; the node the last component names need not exist. *)
Fixpoint walk (m : gmap (list string) node) (cur : list string)
    (comps : list string) : errno + list string :=
  match comps with
  | [] => inr cur
  | c :: comps' =>
      match lookup_node m cur with
      | None => inl ENOENT
      | Some (File _) => inl ENOTDIR
      | Some Dir => walk m (walk_step c cur) comps'
      end
  end.

Definition resolve (m : gmap (list string) node) (wd : list string)
    (name : string) : errno + list string :=
  if bool_decide (name = "") then inl ENOENT
  else walk m (if posixpath.isabs name then [] else wd) (PyStr.split "/" name).

(** The components of a path without the empty ones at its end. *)
Fixpoint drop_trailing_empty (comps : list string) : list string :=
  match comps with
  | [] => []
  | c :: comps' =>
      match drop_trailing_empty comps' with
      | [] => if bool_decide (c = "") then [] else [c]
      | r => c :: r
      end
  end.

(** Resolution for a directory to be created: trailing slashes are ignored. *)
Definition resolve_create (m : gmap (list string) node) (wd : list string)
    (name : string) : errno + list string :=
  if bool_decide (name = "") then inl ENOENT
  else walk m (if posixpath.isabs name then [] else wd)
         (drop_trailing_empty (PyStr.split "/" name)).

(** stat(2) *)
Definition stat (m : gmap (list string) node) (wd : list string)
    (name : string) : errno + node :=
  match resolve m wd name with
  | inl e => inl e
  | inr p =>
      match lookup_node m p with
      | None => inl ENOENT
      | Some n => inr n
      end
  end.

(** mkdir(2) *)
Definition mkdir (m : gmap (list string) node) (wd : list string)
    (name : string) : errno + gmap (list string) node :=
  match resolve_create m wd name with
  | inl e => inl e
  | inr p =>
      match lookup_node m p with
      | Some _ => inl EEXIST
      | None => inr (<[p := Dir]> m)
      end
  end.

(** open(name, O_RDONLY) and reading the whole file *)
Definition read_file (m : gmap (list string) node) (wd : list string)
    (name : string) : errno + string :=
  match resolve m wd name with
  | inl e => inl e
  | inr p =>
      match lookup_node m p with
      | None => inl ENOENT
      | Some Dir => inl EISDIR
      | Some (File data) => inr data
      end
  end.

(** open(name, O_WRONLY|O_CREAT|O_TRUNC) and writing [data] *)
Definition write_file (m : gmap (list string) node) (wd : list string)
    (name data : string) : errno + gmap (list string) node :=
  match resolve m wd name with
  | inl e => inl e
  | inr p =>
      match lookup_node m p with
      | Some Dir => inl EISDIR
      | _ => inr (<[p := File data]> m)
      end
  end.

(** chdir(2): the new working directory *)
Definition chdir (m : gmap (list string) node) (wd : list string)
    (name : string) : errno + list string :=
  match resolve m wd name with
  | inl e => inl e
  | inr p =>
      match lookup_node m p with
      | None => inl ENOENT
      | Some (File _) => inl ENOTDIR
      | Some Dir => inr p
      end
  end.

(** The path name of a node: "/" followed by the components joined by "/". *)
Definition path_string (p : list string) : string := "/" +:+ PyStr.join "/" p.

(** getcwd(2): fails once the working directory has been removed. *)
Definition getcwd (m : gmap (list string) node) (wd : list string)
  : errno + string :=
  match lookup_node m wd with
  | Some Dir => inr (path_string wd)
  | _ => inl ENOENT
  end.

(** The names in a directory, in the order the map enumerates them. *)
Definition listdir (m : gmap (list string) node) (wd : list string)
    (name : string) : errno + list string :=
  match chdir m wd name with
  | inl e => inl e
  | inr p =>
      inr (omap (λ kv : list string * node,
                   if bool_decide (removelast kv.1 = p)
                   then last kv.1 else None)
                (map_to_list m))
  end.

(** Removing a node with everything below it. *)
Definition remove_tree (p : list string) (m : gmap (list string) node)
  : gmap (list string) node :=
  filter (λ kv : list string * node, ¬ p `prefix_of` kv.1) m.

End Sys.

(** ** What lies outside the process *)

Record Env := mkEnv {
  (** [sys.executable] *)
  sys_executable : string;
  (** a shell command run in a working directory on a file system: its return
      code and the file system it leaves *)
  shell : string → list string → gmap (list string) node
          → Z * gmap (list string) node;
  (** a program run for its output: return code and standard output *)
  program_output : list string → list string → gmap (list string) node
                   → Z * string;
  (** the body a URL serves, [None] when the transfer fails *)
  net : string → option string;
  (** the members (name, content) of a zip archive, [None] when the bytes are
      not a zip archive *)
  unzip : string → option (list (string * string));
  (** the names [tempfile] draws, as absolute path names, in order *)
  temp_names : list string
}.

(** ** The monad of the script: state and exceptions *)

Inductive result (A : Type) :=
  | Ok (a : A)
  | Raise (e : exn).
Arguments Ok {A} a.
Arguments Raise {A} e.

Definition M (A : Type) : Type := World → result A * World.

Definition ret {A} (a : A) : M A := λ w, (Ok a, w).

Definition bind {A B} (m : M A) (k : A → M B) : M B :=
  λ w, match m w with
       | (Ok a, w') => k a w'
       | (Raise e, w') => (Raise e, w')
       end.

Definition raise {A} (e : exn) : M A := λ w, (Raise e, w).

Declare Scope py_scope.
Delimit Scope py_scope with py.
Notation "'do' x <- m ; k" := (bind m (λ x, k))
  (at level 10, x name, m at level 100, k at level 200,
   format "'[v' 'do'  x  <-  m ; '/' k ']'") : py_scope.
Notation "m ;; k" := (bind m (λ _, k))
  (at level 100, k at level 200, right associativity) : py_scope.
Local Open Scope py_scope.

(** [try: m finally: fin].  An exception of [fin] replaces the outcome of [m]. *)
Definition try_finally {A} (m : M A) (fin : M unit) : M A :=
  λ w, match m w with
       | (r, w1) =>
           match fin w1 with
           | (Ok _, w2) => (r, w2)
           | (Raise e, w2) => (Raise e, w2)
           end
       end.

(** [try: m except <handled>: h] *)
Definition try_except {A} (m : M A) (h : exn → option (M A)) : M A :=
  λ w, match m w with
       | (Ok a, w1) => (Ok a, w1)
       | (Raise e, w1) =>
           match h e with
           | Some k => k w1
           | None => (Raise e, w1)
           end
       end.

(** [for x in l: body] *)
Fixpoint for_each {A} (l : list A) (body : A → M unit) : M unit :=
  match l with
  | [] => ret tt
  | x :: l' => body x ;; for_each l' body
  end.

(** A call made by the script's text: logged, then performed. *)
Definition call {A} (ev : event) (m : M A) : M A := λ w, m (log_event ev w).

(** A system call that changes the file system. *)
Definition lift_fs (name : string)
    (f : gmap (list string) node → list string → errno + gmap (list string) node)
  : M unit :=
  λ w, match f (fs w) (cwd w) with
       | inl e => (Raise (OSError e name), w)
       | inr m => (Ok tt, set_fs m w)
       end.

(** A system call that only reads. *)
Definition lift_read {A} (name : string)
    (f : gmap (list string) node → list string → errno + A) : M A :=
  λ w, match f (fs w) (cwd w) with
       | inl e => (Raise (OSError e name), w)
       | inr a => (Ok a, w)
       end.

(** [print(line)] *)
Definition print (line : string) : M unit := call (Print line) (ret tt).

(** ** Regular expressions (the fragment the script's pattern needs) *)

Module re.

(** One pattern item: a literal character, a bracket expression given by
    its membership test, or a bracket expression under a greedy [+]. *)
Inductive item :=
  | Lit (c : ascii)
  | Set_ (accepts : ascii → bool)
  | PlusSet (accepts : ascii → bool).

(** [set+] followed by the rest of the pattern [k]: as many characters as
    possible, giving one back at a time while [k] fails. *)
Fixpoint plus_here (accepts : ascii → bool) (k : string → option string)
    (s : string) : option string :=
  match s with
  | EmptyString => None
  | String c s' =>
      if accepts c then
        match plus_here accepts k s' with
        | Some r => Some (String c r)
        | None =>
            match k s' with
            | Some r => Some (String c r)
            | None => None
            end
        end
      else None
  end.

(** [re.match]: the text the pattern matches at the start of [s]. *)
Fixpoint match_here (pat : list item) : string → option string :=
  match pat with
  | [] => λ _, Some EmptyString
  | Lit c :: pat' =>
      λ s, match s with
           | String d s' =>
               if Ascii.eqb c d
               then option_map (String d) (match_here pat' s')
               else None
           | EmptyString => None
           end
  | Set_ accepts :: pat' =>
      λ s, match s with
           | String d s' =>
               if accepts d
               then option_map (String d) (match_here pat' s')
               else None
           | EmptyString => None
           end
  | PlusSet accepts :: pat' => plus_here accepts (match_here pat')
  end.

(** [re.search(pat, s)]: [m.group(0)] of the match at the leftmost position
    that has one, [None] when no position has. *)
Fixpoint search (pat : list item) (s : string) : option string :=
  match match_here pat s with
  | Some m => Some m
  | None =>
      match s with
      | EmptyString => None
      | String _ s' => search pat s'
      end
  end.

Fixpoint literal (s : string) : list item :=
  match s with
  | EmptyString => []
  | String c s' => Lit c :: literal s'
  end.

End re.

(** The bracket expression [[0-9\.]]. *)
Definition digit_or_dot (c : ascii) : bool :=
  let n := nat_of_ascii c in
  (Nat.leb 48 n && Nat.leb n 57) || Ascii.eqb c "."%char.

(** The pattern [r"release_[0-9\.]+"]. *)
Definition release_pattern : list re.item :=
  re.literal "release_" ++ [re.PlusSet digit_or_dot].

(** ** The library calls of the script *)

(** The Python functions under their logged entry points ([os_makedirs],
    [shutil_copy], ...); the [_impl] functions are what the library does
    inside such a call. *)

Definition exists_impl (name : string) : M bool :=
  λ w, (Ok (match Sys.stat (fs w) (cwd w) name with
            | inr _ => true
            | inl _ => false
            end), w).

Definition isdir_impl (name : string) : M bool :=
  λ w, (Ok (match Sys.stat (fs w) (cwd w) name with
            | inr Dir => true
            | _ => false
            end), w).

Definition mkdir_impl (name : string) : M unit :=
  lift_fs name (λ m wd, Sys.mkdir m wd name).

Definition read_impl (name : string) : M string :=
  lift_read name (λ m wd, Sys.read_file m wd name).

Definition write_impl (name data : string) : M unit :=
  lift_fs name (λ m wd, Sys.write_file m wd name data).

(** The handler [except FileExistsError: pass]. *)
Definition pass_FileExistsError (e : exn) : option (M unit) :=
  match e with
  | OSError EEXIST _ => Some (ret tt)
  | _ => None
  end.

(** [os.makedirs(name)] with [exist_ok=False]:
[[
    head, tail = path.split(name)
    if not tail:
        head, tail = path.split(head)
    if head and tail and not path.exists(head):
        try:
            makedirs(head, exist_ok=exist_ok)
        except FileExistsError:
            pass
        if tail == curdir:
            return
    try:
        mkdir(name, mode)
    except OSError:
        if not exist_ok or not path.isdir(name):
            raise
]]
    The recursion is on a proper prefix of [name]; [fuel] bounds its depth. *)
Fixpoint makedirs_rec (fuel : nat) (name : string) : M unit :=
  match fuel with
  | 0 => raise RecursionError
  | S fuel' =>
      let (head, tail) := posixpath.split name in
      let (head, tail) :=
        if bool_decide (tail = "") then posixpath.split head else (head, tail) in
      do stop <-
        (if negb (bool_decide (head = "")) && negb (bool_decide (tail = ""))
         then do ex <- exists_impl head;
              if ex then ret false
              else try_except (makedirs_rec fuel' head) pass_FileExistsError ;;
                   ret (bool_decide (tail = "."))
         else ret false);
      if stop then ret tt else mkdir_impl name
  end.

Definition makedirs_impl (name : string) : M unit :=
  makedirs_rec (S (String.length name)) name.

Definition os_makedirs (name : string) : M unit :=
  call (Makedirs name) (makedirs_impl name).

Definition os_mkdir (name : string) : M unit :=
  call (Mkdir name) (mkdir_impl name).

Definition os_getcwd : M string :=
  call Getcwd (lift_read "." (λ m wd, Sys.getcwd m wd)).

Definition os_chdir (path : string) : M unit :=
  call (Chdir path)
    (λ w, match Sys.chdir (fs w) (cwd w) path with
          | inl e => (Raise (OSError e path), w)
          | inr p => (Ok tt, set_cwd p w)
          end).

(** [shutil.copyfile(src, dst)]: the same-file test, then [src] is opened for
    reading before [dst] is opened for writing. *)
Definition copyfile_impl (src dst : string) : M unit :=
  do same <- (λ w, (Ok (match Sys.resolve (fs w) (cwd w) src,
                              Sys.resolve (fs w) (cwd w) dst with
                        | inr p, inr q =>
                            bool_decide (p = q)
                            && bool_decide (is_Some (Sys.lookup_node (fs w) p))
                        | _, _ => false
                        end), w));
  if same : bool then raise (SameFileError src dst)
  else do data <- read_impl src; write_impl dst data.

(** [shutil.copy(src, dst)]:
[[
    if os.path.isdir(dst):
        dst = os.path.join(dst, os.path.basename(src))
    copyfile(src, dst)
    copymode(src, dst)
]]
    (modes are not modelled). *)
Definition shutil_copy (src dst : string) : M unit :=
  call (Copy src dst)
    (do d <- isdir_impl dst;
     let dst := if d : bool
                then posixpath.join dst [posixpath.basename src] else dst in
     copyfile_impl src dst).

(** [fnmatch.fnmatch(name, pat)] for patterns of literal characters, [*] and
    [?] (bracket expressions are not modelled). *)
Fixpoint fnmatch (pat : string) : string → bool :=
  match pat with
  | EmptyString => λ name, bool_decide (name = "")
  | String c pat' =>
      if Ascii.eqb c "*"%char then
        fix star (name : string) : bool :=
          fnmatch pat' name
          || match name with
             | EmptyString => false
             | String _ name' => star name'
             end
      else
        λ name, match name with
                | EmptyString => false
                | String d name' =>
                    (Ascii.eqb c "?"%char || Ascii.eqb c d) && fnmatch pat' name'
                end
  end.

(** [glob.glob(pathname)] for a [pathname] whose directory part has no
    wildcard and whose last component has one (both patterns of the script):
    the names of the directory that match, hidden names left out unless the
    pattern is hidden too, each joined to the directory part.  A directory
    that cannot be listed gives no name. *)
Definition glob_glob (pathname : string) : M (list string) :=
  call (Glob pathname)
    (λ w,
       let (dirname, basename) := posixpath.split pathname in
       let names :=
         match Sys.listdir (fs w) (cwd w)
                 (if bool_decide (dirname = "") then "." else dirname) with
         | inl _ => []
         | inr names => names
         end in
       let names :=
         if PyStr.startswith "." basename then names
         else filter (λ x, PyStr.startswith "." x = false) names in
       (Ok (map (λ x, posixpath.join dirname [x])
                (filter (λ x, fnmatch basename x = true) names)), w)).

(** [tempfile.mkdtemp()]: the first candidate name that [mkdir] accepts.  The
    candidates are [os.path.join(gettempdir(), prefix + name + suffix)], the
    directory being absolute and normalised, so that [abspath] of a candidate
    is the candidate itself. *)
Fixpoint mkdtemp_loop (names : list string) : M string :=
  match names with
  | [] => raise (OSError EEXIST "No usable temporary directory name found")
  | file :: names' =>
      try_except (mkdir_impl file ;; ret file)
        (λ e, match e with
              | OSError EEXIST _ => Some (mkdtemp_loop names')
              | _ => None
              end)
  end.

(** [TemporaryDirectory.cleanup()]: [shutil.rmtree(name)], a name that is no
    longer there being ignored. *)
Definition rmtree_impl (name : string) : M unit :=
  λ w, match Sys.resolve (fs w) (cwd w) name with
       | inl ENOENT => (Ok tt, w)
       | inl e => (Raise (OSError e name), w)
       | inr p =>
           match Sys.lookup_node (fs w) p with
           | None => (Ok tt, w)
           | Some (File _) => (Raise (OSError ENOTDIR name), w)
           | Some Dir => (Ok tt, set_fs (Sys.remove_tree p (fs w)) w)
           end
       end.

(** [ZipFile._extract_member(member, targetpath)]: the member's name without
    empty, "." and ".." components, below [targetpath]; missing upper
    directories are created; a name that ends with "/" is a directory. *)
Definition extract_member (targetpath : string) (member : string * string)
  : M unit :=
  let arcname :=
    PyStr.join "/"
      (filter (λ x, x ≠ "" ∧ x ≠ "." ∧ x ≠ "..") (PyStr.split "/" member.1)) in
  let targetpath := posixpath.normpath (posixpath.join targetpath [arcname]) in
  let upperdirs := (posixpath.split targetpath).1 in
  (if negb (bool_decide (upperdirs = ""))
   then do ex <- exists_impl upperdirs;
        if ex : bool then ret tt else makedirs_impl upperdirs
   else ret tt) ;;
  if PyStr.endswith_char "/" member.1
  then do d <- isdir_impl targetpath;
       if d : bool then ret tt else mkdir_impl targetpath
  else write_impl targetpath member.2.

Section Script.

Variable env : Env.

(** [subprocess.check_call(command, shell=True)] *)
Definition subprocess_check_call (command : string) : M unit :=
  call (CheckCall command)
    (λ w, let (rc, m) := shell env command (cwd w) (fs w) in
          if Z.eqb rc 0 then (Ok tt, set_fs m w)
          else (Raise (CalledProcessError rc command), set_fs m w)).

(** [subprocess.check_output(argv).decode()] *)
Definition subprocess_check_output (argv : list string) : M string :=
  call (CheckOutput argv)
    (λ w, let (rc, out) := program_output env argv (cwd w) (fs w) in
          if Z.eqb rc 0 then (Ok out, w)
          else (Raise (CalledProcessError rc (PyStr.join " " argv)), w)).

(** [urllib.request.urlretrieve(url, filename)]: the transfer is opened
    first, then the file. *)
Definition urlretrieve (url filename : string) : M unit :=
  call (Urlretrieve url filename)
    (match net env url with
     | None => raise (URLError url)
     | Some body => write_impl filename body
     end).

(** [with tempfile.TemporaryDirectory() as tempdir: body] *)
Definition with_TemporaryDirectory {A} (body : string → M A) : M A :=
  do name <- call Mkdtemp (mkdtemp_loop (temp_names env));
  try_finally (body name) (call (Cleanup name) (rmtree_impl name)).

(** [zipfile.ZipFile(file, "r")]: the members of the archive. *)
Definition zipfile_ZipFile (file : string) : M (list (string * string)) :=
  call (ZipOpen file)
    (do data <- read_impl file;
     match unzip env data with
     | None => raise (BadZipFile file)
     | Some members => ret members
     end).

(** [t.extractall(path)] *)
Definition extractall (members : list (string * string)) (path : string)
  : M unit :=
  call (Extractall path) (for_each members (extract_member path)).

(** ** The script *)

Definition cp (source target : string) : M unit :=
  let source := normpath source in
  let target := normpath target in
  print ("cp " +:+ source +:+ " " +:+ target) ;;
  shutil_copy source target.

Definition maybe_makedirs (path : string) : M unit :=
  let path := normpath path in
  print ("mkdir -p " +:+ path) ;;
  try_except (os_makedirs path)
    (λ e, match e with
          | OSError e' _ =>
              if bool_decide (e' ≠ EEXIST) then None else Some (ret tt)
          | _ => None
          end).

(** The context manager [cd(path)] around the body of the [with]. *)
Definition cd {A} (path : string) (body : string → M A) : M A :=
  let path := normpath path in
  do cwd <- os_getcwd;
  os_chdir path ;;
  print ("cd " +:+ path) ;;
  try_finally (body path) (os_chdir cwd).

Definition run (command : string) : M unit :=
  print command ;;
  subprocess_check_call command.

Definition newline : ascii := ascii_of_nat 10.

Definition get_current_commit_hash : M string :=
  do out <- subprocess_check_output ["git"; "rev-parse"; "HEAD"];
  ret (hd "" (PyStr.split newline out)).

Definition get_current_git_branch : M string :=
  do out <- subprocess_check_output
              ["git"; "log"; "-n"; "1"; "--pretty=%d"; "HEAD"];
  match re.search release_pattern out with
  | None => raise (ValueError "Expected branch name of form release_xxx")
  | Some m => ret m
  end.

Definition retrieve (url filename : string) : M unit :=
  print (url +:+ " -> " +:+ filename) ;;
  urlretrieve url filename.

(** [argparse]: the one required option, in its two-token form (the
    abbreviated and the [--release-version=V] forms are not modelled). *)
Definition parse_args (argv : list string) : M string :=
  match argv with
  | [opt; version] =>
      if bool_decide (opt = "--release-version") then ret version
      else raise (SystemExit 2)
  | _ => raise (SystemExit 2)
  end.

Definition nightly_bucket_prefix : string :=
  "https://s3-us-west-2.amazonaws.com/xgboost-nightly-builds".

Definition maven_repo_prefix : string :=
  "https://s3-us-west-2.amazonaws.com/xgboost-maven-repo/release/ml/dmlc".

(** The two [for use_cuda in [True, False]] loops. *)
Definition copy_tracker : M unit :=
  for_each [true; false] (λ use_cuda : bool,
    let xgboost4j := if use_cuda then "xgboost4j-gpu" else "xgboost4j" in
    cp "../python-package/xgboost/tracker.py"
       (xgboost4j +:+ "/src/main/resources")).

Definition copy_test_resources : M unit :=
  for_each [true; false] (λ use_cuda : bool,
    let xgboost4j := if use_cuda then "xgboost4j-gpu" else "xgboost4j" in
    let xgboost4j_spark :=
      if use_cuda then "xgboost4j-spark-gpu" else "xgboost4j-spark" in
    maybe_makedirs (xgboost4j +:+ "/src/test/resources") ;;
    maybe_makedirs (xgboost4j_spark +:+ "/src/test/resources") ;;
    (do files <- glob_glob "../demo/data/agaricus.*";
     for_each files (λ file,
       cp file (xgboost4j +:+ "/src/test/resources") ;;
       cp file (xgboost4j_spark +:+ "/src/test/resources"))) ;;
    (do files <- glob_glob "../demo/CLI/regression/machine.txt.t*";
     for_each files (λ file,
       cp file (xgboost4j_spark +:+ "/src/test/resources")))).

(** The two loops that create the directories of the native binaries. *)
Definition make_native_dirs : M unit :=
  for_each [("linux", "x86_64"); ("linux", "aarch64"); ("windows", "x86_64");
            ("macos", "x86_64"); ("macos", "aarch64")]
    (λ '(os_ident, arch),
       let output_dir :=
         "xgboost4j/src/main/resources/lib/" +:+ os_ident +:+ "/" +:+ arch in
       maybe_makedirs output_dir) ;;
  for_each [("linux", "x86_64")]
    (λ '(os_ident, arch),
       let output_dir :=
         "xgboost4j-gpu/src/main/resources/lib/" +:+ os_ident +:+ "/" +:+ arch in
       maybe_makedirs output_dir).

(** The five downloads from the nightly bucket. *)
Definition download_native (git_branch commit_hash : string) : M unit :=
  retrieve
    (nightly_bucket_prefix +:+ "/" +:+ git_branch
       +:+ "/libxgboost4j/xgboost4j_" +:+ commit_hash +:+ ".dll")
    "xgboost4j/src/main/resources/lib/windows/x86_64/xgboost4j.dll" ;;
  retrieve
    (nightly_bucket_prefix +:+ "/" +:+ git_branch
       +:+ "/libxgboost4j/libxgboost4j_linux_x86_64_" +:+ commit_hash +:+ ".so")
    "xgboost4j/src/main/resources/lib/linux/x86_64/libxgboost4j.so" ;;
  retrieve
    (nightly_bucket_prefix +:+ "/" +:+ git_branch
       +:+ "/libxgboost4j/libxgboost4j_linux_arm64_" +:+ commit_hash +:+ ".so")
    "xgboost4j/src/main/resources/lib/linux/aarch64/libxgboost4j.so" ;;
  retrieve
    (nightly_bucket_prefix +:+ "/" +:+ git_branch
       +:+ "/libxgboost4j/libxgboost4j_" +:+ commit_hash +:+ ".dylib")
    "xgboost4j/src/main/resources/lib/macos/x86_64/libxgboost4j.dylib" ;;
  retrieve
    (nightly_bucket_prefix +:+ "/" +:+ git_branch
       +:+ "/libxgboost4j/libxgboost4j_m1_" +:+ commit_hash +:+ ".dylib")
    "xgboost4j/src/main/resources/lib/macos/aarch64/libxgboost4j.dylib".

(** The body of [with tempfile.TemporaryDirectory() as tempdir]. *)
Definition gpu_jar_body (version tempdir : string) : M unit :=
  let zip_path := posixpath.join tempdir ["xgboost4j-gpu_2.12.jar"] in
  let extract_dir := posixpath.join tempdir ["xgboost4j-gpu"] in
  retrieve
    (maven_repo_prefix +:+ "/xgboost4j-gpu_2.12/" +:+ version +:+ "/"
       +:+ "xgboost4j-gpu_2.12-" +:+ version +:+ ".jar")
    zip_path ;;
  os_mkdir extract_dir ;;
  (do t <- zipfile_ZipFile zip_path;
   extractall t extract_dir) ;;
  cp (posixpath.join extract_dir ["lib"; "linux"; "x86_64"; "libxgboost4j.so"])
     "xgboost4j-gpu/src/main/resources/lib/linux/x86_64/libxgboost4j.so".

Definition gpu_jar (version : string) : M unit :=
  with_TemporaryDirectory (gpu_jar_body version).

Definition nl : string := String newline "".

(** The closing prints. *)
Definition next_steps : M unit :=
  print "====Next Steps====" ;;
  print "1. Gain upload right to Maven Central repo." ;;
  print "1-1. Sign up for a JIRA account at Sonatype: " ;;
  print ("1-2. File a JIRA ticket: "
         +:+ "https://issues.sonatype.org/secure/CreateIssue.jspa?issuetype=21&pid=10134. Example: "
         +:+ "https://issues.sonatype.org/browse/OSSRH-67724") ;;
  print ("2. Store the Sonatype credentials in .m2/settings.xml. See insturctions in "
         +:+ "https://central.sonatype.org/publish/publish-maven/") ;;
  print ("3. Now on a Linux machine, run the following to build Scala 2.12 artifacts. "
         +:+ "Make sure to use an Internet connection with fast upload speed:") ;;
  print ("   # Skip native build, since we have all needed native binaries from CI" +:+ nl
         +:+ "   GPG_TTY=$(tty) mvn deploy -Prelease -DskipTests -Dskip.native.build=true") ;;
  print ("4. Log into https://oss.sonatype.org/. On the left menu panel, click Staging "
         +:+ "Repositories. Visit the URL https://oss.sonatype.org/content/repositories/mldmlc-xxxx "
         +:+ "to inspect the staged JAR files. Finally, press Release button to publish the "
         +:+ "artifacts to the Maven Central repository. The top-level metapackage should be "
         +:+ "named xgboost-jvm_2.12.") ;;
  print ("5. Remove the Scala 2.12 artifacts and build Scala 2.13 artifacts:" +:+ nl
         +:+ "   python ops/script/change_scala_version.py --scala-version 2.13 --purge-artifacts" +:+ nl
         +:+ "   GPG_TTY=$(tty) mvn deploy -Prelease -DskipTests -Dskip.native.build=true") ;;
  print ("6. Go to https://oss.sonatype.org/ to release the Scala 2.13 artifacts. "
         +:+ "The top-level metapackage should be named xgboost-jvm_2.13.").

(** The body of [with cd("jvm-packages/")]. *)
Definition in_jvm_packages (version git_branch commit_hash : string) : M unit :=
  print "====copying pure-Python tracker====" ;;
  copy_tracker ;;
  print "====copying resources for testing====" ;;
  cd "../demo/CLI/regression" (λ _,
    run (sys_executable env +:+ " mapfeat.py") ;;
    run (sys_executable env +:+ " mknfold.py machine.txt 1")) ;;
  copy_test_resources ;;
  print "====Creating directories to hold native binaries====" ;;
  make_native_dirs ;;
  print "====Downloading native binaries from CI====" ;;
  download_native git_branch commit_hash ;;
  gpu_jar version.

Definition main (argv : list string) : M unit :=
  do version <- parse_args argv;
  do commit_hash <- get_current_commit_hash;
  do git_branch <- get_current_git_branch;
  print ("Using commit " +:+ commit_hash +:+ " of branch " +:+ git_branch) ;;
  cd "jvm-packages/" (λ _, in_jvm_packages version git_branch commit_hash) ;;
  next_steps.

End Script.

(** ** Vocabulary of the statements *)

(** Every run of slashes of [s] becomes one slash; with [quiet] set, a run at
    the very start is dropped instead. *)
Fixpoint squeeze (quiet : bool) (s : string) : string :=
  match s with
  | EmptyString => EmptyString
  | String c s' =>
      if Ascii.eqb c "/"%char
      then if quiet then squeeze true s' else String "/" (squeeze true s')
      else String c (squeeze false s')
  end.

(** The components of a path that are not empty. *)
Definition nonempty_components (path : string) : list string :=
  filter (λ x, x ≠ "") (PyStr.split "/" path).

(** A path rebuilt from its non-empty components alone, its root kept. *)
Definition without_empty_components (path : string) : string :=
  (if posixpath.isabs path then "/" else "")
  +:+ PyStr.join "/" (nonempty_components path).

(** A trailing separator that follows a named component. *)
Definition trailing_separator (path : string) : string :=
  if bool_decide (nonempty_components path ≠ [])
     && bool_decide (last (PyStr.split "/" path) = Some "")
  then "/" else "".

(** What [squeeze false] leaves after the first component of a path: nothing
    when it was the only one, otherwise a slash, the named components and one
    slash more when the path ends with a separator after a named component. *)
Definition after_first (t : list string) : string :=
  match t with
  | [] => ""
  | _ =>
      "/" +:+ PyStr.join "/" (filter (λ x, x ≠ "") t)
      +:+ (if bool_decide (filter (λ x, x ≠ "") t ≠ [])
              && bool_decide (last t = Some "")
           then "/" else "")
  end.

(** [quiet acc]: [posixpath.join] appends the next component to [acc]
    without a separator. *)
Definition quiet (acc : string) : bool :=
  bool_decide (acc = "") || PyStr.endswith_char "/" acc.

(** The longest prefix of [s] whose characters [accepts] accepts. *)
Fixpoint run_of (accepts : ascii → bool) (s : string) : string :=
  match s with
  | EmptyString => EmptyString
  | String c s' => if accepts c then String c (run_of accepts s') else EmptyString
  end.

(** [s] starts with a release name: "release_" and a digit or dot. *)
Definition release_at (s : string) : bool :=
  PyStr.startswith "release_" s
  && match PyStr.drop 8 s with
     | String c _ => digit_or_dot c
     | EmptyString => false
     end.

(** A release name starts somewhere in [text]. *)
Fixpoint has_release (text : string) : bool :=
  release_at text
  || match text with
     | EmptyString => false
     | String _ text' => has_release text'
     end.

(** No release name starts at any of the first [n] positions of [text]. *)
Fixpoint no_release_in_first (n : nat) (text : string) : bool :=
  match n with
  | 0 => true
  | S n' =>
      negb (release_at text)
      && match text with
         | EmptyString => true
         | String _ text' => no_release_in_first n' text'
         end
  end.

(** In the words of the pattern: a release name is "release_" followed by a
    non-empty sequence of digits and dots. *)
Definition is_release_name (s : string) : Prop :=
  ∃ run, s = "release_" +:+ run ∧ run ≠ "" ∧ run_of digit_or_dot run = run.

Definition substring_of (s text : string) : Prop :=
  ∃ pre post, text = pre +:+ s +:+ post.

Definition git_log_argv : list string :=
  ["git"; "log"; "-n"; "1"; "--pretty=%d"; "HEAD"].

(** ** A sample environment and a sample checkout *)

(** A node at the path [name], given without its leading slash. *)
Definition at_path (name : string) (n : node) : list string * node :=
  (PyStr.split "/" name, n).

(** A checkout of the repository in [/repo], and [/tmp]. *)
Definition sample_fs : gmap (list string) node :=
  list_to_map [
    at_path "tmp" Dir;
    at_path "repo" Dir;
    at_path "repo/python-package" Dir;
    at_path "repo/python-package/xgboost" Dir;
    at_path "repo/python-package/xgboost/tracker.py" (File "# tracker");
    at_path "repo/demo" Dir;
    at_path "repo/demo/data" Dir;
    at_path "repo/demo/data/agaricus.txt.train" (File "train");
    at_path "repo/demo/data/agaricus.txt.test" (File "test");
    at_path "repo/demo/data/README.md" (File "readme");
    at_path "repo/demo/CLI" Dir;
    at_path "repo/demo/CLI/regression" Dir;
    at_path "repo/demo/CLI/regression/machine.data" (File "data");
    at_path "repo/jvm-packages" Dir;
    at_path "repo/jvm-packages/xgboost4j" Dir;
    at_path "repo/jvm-packages/xgboost4j/src" Dir;
    at_path "repo/jvm-packages/xgboost4j/src/main" Dir;
    at_path "repo/jvm-packages/xgboost4j/src/main/resources" Dir;
    at_path "repo/jvm-packages/xgboost4j-gpu" Dir;
    at_path "repo/jvm-packages/xgboost4j-gpu/src" Dir;
    at_path "repo/jvm-packages/xgboost4j-gpu/src/main" Dir;
    at_path "repo/jvm-packages/xgboost4j-gpu/src/main/resources" Dir
  ].

(** The two fixture scripts write their outputs in the working directory;
    any other command is not found. *)
Definition sample_shell (cmd : string) (wd : list string)
    (m : gmap (list string) node) : Z * gmap (list string) node :=
  if bool_decide (cmd = "python3 mapfeat.py") then
    (0%Z, <[(wd ++ ["machine.txt"])%list := File "features"]> m)
  else if bool_decide (cmd = "python3 mknfold.py machine.txt 1") then
    (0%Z, <[(wd ++ ["machine.txt.train"])%list := File "fold-train"]>
            (<[(wd ++ ["machine.txt.test"])%list := File "fold-test"]> m))
  else (127%Z, m).

(** git, answering [rev-parse HEAD] with [commit] and [log -n 1 --pretty=%d
    HEAD] with [decoration]. *)
Definition sample_git (commit decoration : string) (argv : list string)
    (wd : list string) (m : gmap (list string) node) : Z * string :=
  if bool_decide (argv = ["git"; "rev-parse"; "HEAD"]) then (0%Z, commit)
  else if bool_decide (argv = git_log_argv) then (0%Z, decoration)
  else (128%Z, "").

(** Every URL serves a body; every such body is an archive with the one
    binary in it. *)
Definition env_with_git (commit decoration : string) : Env :=
  {| sys_executable := "python3";
     shell := sample_shell;
     program_output := sample_git commit decoration;
     net := λ url, Some ("body of " +:+ url);
     unzip := λ data,
       if PyStr.startswith "body of " data
       then Some [("lib/", ""); ("lib/linux/x86_64/libxgboost4j.so", "gpu binary")]
       else None;
     temp_names := ["/tmp/tmpa1b2c3d4"] |}.

Definition sample_env : Env :=
  env_with_git ("abc123" +:+ String (ascii_of_nat 10) "")
               (" (tag: v1.7.0, release_1.7.0)" +:+ String (ascii_of_nat 10) "").

Definition sample_world : World := mkWorld sample_fs ["repo"] [].

Definition sample_argv : list string := ["--release-version"; "1.7.0"].

(** ** Effects of a computation *)

(** [m] takes every world to one that [R] relates it to. *)
Definition preserves (R : World → World → Prop) {A} (m : M A) : Prop :=
  ∀ w, R w (m w).2.

Definition same_log (w w' : World) : Prop := log w' = log w.
Definition same_cwd (w w' : World) : Prop := cwd w' = cwd w.
Definition same_fs (w w' : World) : Prop := fs w' = fs w.

(** Every directory of [m] is a directory of [m']. *)
Definition dirs_le (m m' : gmap (list string) node) : Prop :=
  ∀ p, Sys.lookup_node m p = Some Dir → Sys.lookup_node m' p = Some Dir.

(** No directory is removed or replaced, the working directory stays. *)
Definition keeps_dirs (w w' : World) : Prop :=
  dirs_le (fs w) (fs w') ∧ cwd w' = cwd w.

(** The line the script prints for a call, for the calls that act on the file
    system, on a subprocess or on the network. *)
Definition shell_equivalent (ev : event) : option string :=
  match ev with
  | Copy src dst => Some ("cp " +:+ src +:+ " " +:+ dst)
  | Makedirs name => Some ("mkdir -p " +:+ name)
  | Mkdir name => Some ("mkdir " +:+ name)
  | Chdir path => Some ("cd " +:+ path)
  | CheckCall cmd => Some cmd
  | Urlretrieve url filename => Some (url +:+ " -> " +:+ filename)
  | _ => None
  end.

Definition is_print_of (line : string) (ev : option event) : bool :=
  match ev with
  | Some (Print l) => bool_decide (l = line)
  | _ => false
  end.

(** Every acting call of the log comes right after the print of its line;
    [prev] is the event before the log. *)
Fixpoint narrated (prev : option event) (evs : list event) : bool :=
  match evs with
  | [] => true
  | ev :: evs' =>
      match shell_equivalent ev with
      | Some line => is_print_of line prev
      | None => true
      end && narrated (Some ev) evs'
  end.

(** The directory [p] can be entered by its path name. *)
Definition can_return_to (m : gmap (list string) node) (p : list string)
  : bool :=
  bool_decide (Sys.chdir m [] (Sys.path_string p) = inr p).

(** [l'] is [l] without some of its empty components, the last component
    being kept. *)
Inductive thinned : list string → list string → Prop :=
  | thinned_nil : thinned [] []
  | thinned_keep c l l' : thinned l l' → thinned (c :: l) (c :: l')
  | thinned_drop l l' : l ≠ [] → thinned l l' → thinned ("" :: l) l'.

(** The file [shutil.copy(source, target)] writes, after [cp] has normalised
    both paths: inside [target] when that is a directory. *)
Definition copy_destination (w : World) (source target : string) : string :=
  match Sys.stat (fs w) (cwd w) (normpath target) with
  | inr Dir =>
      posixpath.join (normpath target) [posixpath.basename (normpath source)]
  | _ => normpath target
  end.

(** ** The calls of a run, in brief *)

(** What the end-to-end property is about: the directories ensured, the URLs
    requested, the archive opened and extracted, the binary copied out. *)
Inductive action :=
  | Ensured (dir : string)
  | Requested (url : string)
  | ArchiveOpened
  | ArchiveExtracted
  | BinaryCopied.

Definition gpu_binary : string :=
  "xgboost4j-gpu/src/main/resources/lib/linux/x86_64/libxgboost4j.so".

Definition action_of (ev : event) : option action :=
  match ev with
  | Makedirs name => Some (Ensured name)
  | Urlretrieve url _ => Some (Requested url)
  | ZipOpen _ => Some ArchiveOpened
  | Extractall _ => Some ArchiveExtracted
  | Copy _ dst => if bool_decide (dst = gpu_binary) then Some BinaryCopied else None
  | _ => None
  end.

Definition summary (evs : list event) : list action := omap action_of evs.


Definition test_resource_dirs : list string :=
  [ "xgboost4j-gpu/src/test/resources";
    "xgboost4j-spark-gpu/src/test/resources";
    "xgboost4j/src/test/resources";
    "xgboost4j-spark/src/test/resources" ].





(** When [m] returns, the events it has added to the log come to [calls]. *)
Definition yields {A} (m : M A) (calls : list action) : Prop :=
  ∀ w a w', m w = (Ok a, w') →
            ∃ evs, log w' = log w ++ evs ∧ summary evs = calls.

Definition git_rev_parse_argv : list string := ["git"; "rev-parse"; "HEAD"].

(** On every run of [m], returning or raising, the events it has added to
    the log come to [calls] when it returns and to a prefix of [calls] when
    it raises. *)
Definition emits {A} (m : M A) (calls : list action) : Prop :=
  ∀ w, ∃ evs, log (m w).2 = log w ++ evs
              ∧ match (m w).1 with
                | Ok _ => summary evs = calls
                | Raise _ => summary evs `prefix_of` calls
                end.

(** A path component that names an entry of a directory: not empty, without
    a separator, and neither "." nor "..". *)
Definition plain_name (c : string) : bool :=
  negb (bool_decide (c = "")) && negb (PyStr.contains_char "/" c)
  && negb (bool_decide (c = ".")) && negb (bool_decide (c = "..")).

(** ** What a run may copy and execute *)

(** The copies the script's text provides for: the extracted binary to its
    place; the tracker into the resources of the two packages; the files
    [agaricus.*] of the demo data into the test resources of the four
    packages; the files [machine.txt.t*] of the regression demo into those of
    the two Spark packages. *)
Definition allowed_copy (src dst : string) : bool :=
  bool_decide (dst = gpu_binary)
  || (bool_decide (src = "../python-package/xgboost/tracker.py")
      && bool_decide (dst ∈ ["xgboost4j-gpu/src/main/resources";
                             "xgboost4j/src/main/resources"]))
  || (PyStr.startswith "../demo/data/agaricus." src
      && bool_decide (dst ∈ test_resource_dirs))
  || (PyStr.startswith "../demo/CLI/regression/machine.txt.t" src
      && bool_decide (dst ∈ ["xgboost4j-spark-gpu/src/test/resources";
                             "xgboost4j-spark/src/test/resources"])).

(** The copies are those above; the commands run are the two fixture
    scripts, under the interpreter that runs the script itself; the programs
    whose output is read are the two queries to git. *)
Definition allowed_event (env : Env) (ev : event) : bool :=
  match ev with
  | Copy src dst => allowed_copy src dst
  | CheckCall cmd =>
      bool_decide (cmd ∈ [sys_executable env +:+ " mapfeat.py";
                          sys_executable env +:+ " mknfold.py machine.txt 1"])
  | CheckOutput argv =>
      bool_decide (argv ∈ [["git"; "rev-parse"; "HEAD"]; git_log_argv])
  | _ => true
  end.

(** From [w] to [w'] the log has grown by allowed events only. *)
Definition only_allowed (env : Env) (w w' : World) : Prop :=
  ∃ evs, log w' = log w ++ evs ∧ forallb (allowed_event env) evs = true.

(** * Theorems *)

(** ** Strings *)

#[local] Arguments Ascii.eqb : simpl never.

Lemma ascii_eqb_eq (a b : ascii) : Ascii.eqb a b = bool_decide (a = b).
Proof.
  destruct (Ascii.eqb_spec a b) as [->|Hne].
  - by rewrite bool_decide_eq_true_2.
  - by rewrite bool_decide_eq_false_2.
Qed.

Lemma app_nil_l (t : string) : "" +:+ t = t.
Proof. reflexivity. Qed.

Lemma app_cons (a : ascii) (s t : string) :
  String a s +:+ t = String a (s +:+ t).
Proof. reflexivity. Qed.

Create Rewrite HintDb str.
#[local] Hint Rewrite app_nil_l app_cons : str.

(** [simpl] does not unfold string concatenation; this does. *)
Ltac ssimpl := simpl; autorewrite with str; simpl.
Ltac ssimpl_in H := simpl in H; autorewrite with str in H; simpl in H.

Lemma append_assoc (a b c : string) : (a +:+ b) +:+ c = a +:+ (b +:+ c).
Proof. induction a as [|x a IH]; ssimpl; [done | by rewrite IH]. Qed.

Lemma append_empty_r (a : string) : a +:+ "" = a.
Proof. induction a as [|x a IH]; ssimpl; [done | by rewrite IH]. Qed.

Lemma split_nonempty (c : ascii) (s : string) : PyStr.split c s ≠ [].
Proof.
  induction s as [|a s IH]; simpl; [done |].
  destruct (Ascii.eqb a c); [done |].
  destruct (PyStr.split c s); done.
Qed.

Lemma split_cons (c : ascii) (s : string) :
  ∃ h t, PyStr.split c s = h :: t.
Proof.
  pose proof (split_nonempty c s) as H.
  destruct (PyStr.split c s) as [|h t]; [done | eauto].
Qed.

(** The first component of a split does not start with the separator. *)
Lemma split_head_no_sep (s : string) h t :
  PyStr.split "/" s = h :: t → PyStr.startswith "/" h = false.
Proof.
  destruct s as [|a s]; simpl.
  - intros [= <- <-]. done.
  - destruct (Ascii.eqb a "/") eqn:E.
    + intros [= <- <-]. done.
    + destruct (PyStr.split "/" s); intros [= <- <-]; simpl;
        rewrite Ascii.eqb_sym, E; done.
Qed.

Lemma last_char_app_cons (s : string) (c : ascii) (t : string) :
  PyStr.last_char (s +:+ String c t) = PyStr.last_char (String c t).
Proof.
  induction s as [|a s IH]; [done |].
  rewrite app_cons. cbn [PyStr.last_char]. rewrite IH.
  destruct (s +:+ String c t) eqn:E; [destruct s; discriminate | done].
Qed.

Lemma last_char_snoc (s : string) (c : ascii) :
  PyStr.last_char (s +:+ String c "") = Some c.
Proof. by rewrite last_char_app_cons. Qed.

Lemma join_step_no_sep (acc h : string) :
  PyStr.startswith "/" h = false →
  posixpath.join_step acc h = if quiet acc then acc +:+ h else acc +:+ "/" +:+ h.
Proof. intros H. unfold posixpath.join_step, quiet. by rewrite H. Qed.

Lemma quiet_snoc (acc : string) (c : ascii) :
  quiet (acc +:+ String c "") = Ascii.eqb "/" c.
Proof.
  unfold quiet, PyStr.endswith_char. rewrite last_char_snoc.
  rewrite bool_decide_eq_false_2; [done |]. destruct acc; discriminate.
Qed.

(** The loop of [posixpath.join] over the components of [s], started in the
    middle of a component, squeezes the slashes of [s]. *)
Lemma join_split_squeeze (s acc : string) :
  match PyStr.split "/" s with
  | h :: t => fold_left posixpath.join_step t (acc +:+ h)
  | [] => acc
  end = acc +:+ squeeze (quiet acc) s.
Proof.
  revert acc. induction s as [|a s IH]; intros acc; simpl.
  - done.
  - destruct (Ascii.eqb a "/") eqn:E.
    + simpl. rewrite append_empty_r.
      destruct (split_cons "/" s) as (h & t & Hs).
      specialize (IH acc) as IH1. rewrite Hs in IH1 |- *. simpl.
      rewrite (join_step_no_sep acc h (split_head_no_sep _ _ _ Hs)).
      destruct (quiet acc) eqn:Q; [done |].
      specialize (IH (acc +:+ "/")). rewrite Hs in IH.
      rewrite append_assoc in IH. rewrite IH.
      rewrite quiet_snoc. simpl. by rewrite !append_assoc.
    + destruct (split_cons "/" s) as (h & t & Hs).
      specialize (IH (acc +:+ String a "")). rewrite Hs in IH |- *.
      rewrite append_assoc in IH. ssimpl_in IH. rewrite IH.
      rewrite quiet_snoc, Ascii.eqb_sym, E, append_assoc. done.
Qed.

Lemma squeeze_relative (s : string) :
  posixpath.isabs s = false → squeeze true s = squeeze false s.
Proof.
  destruct s as [|a s]; [done |]. unfold posixpath.isabs. simpl.
  rewrite Ascii.eqb_sym. by destruct (Ascii.eqb a "/").
Qed.

(** The script's [normpath] squeezes every run of slashes into one. *)
Lemma normpath_squeeze (path : string) : normpath path = squeeze false path.
Proof.
  unfold normpath.
  pose proof (join_split_squeeze path "") as H. simpl in H.
  destruct (split_cons "/" path) as (h & t & Hs). rewrite Hs in H |- *.
  unfold posixpath.join. rewrite app_nil_l in H. rewrite H.
  destruct (posixpath.isabs path) eqn:A.
  - destruct path as [|a p]; [done |]. unfold posixpath.isabs in A. simpl in A.
    destruct (Ascii.eqb_spec "/" a) as [<-|]; [|done]. done.
  - rewrite app_nil_l. by apply squeeze_relative.
Qed.

Lemma squeeze_idempotent (b : bool) (s : string) :
  squeeze b (squeeze b s) = squeeze b s.
Proof.
  revert b. induction s as [|a s IH]; intros b; simpl; [done |].
  destruct (Ascii.eqb a "/") eqn:E.
  - destruct b; [apply IH |]. simpl. by rewrite IH.
  - assert (squeeze b (String a (squeeze false s)) = String a (squeeze false s))
      as ->; [|done].
    simpl. rewrite E. by rewrite IH.
Qed.

Lemma isabs_squeeze (s : string) :
  posixpath.isabs (squeeze false s) = posixpath.isabs s.
Proof.
  destruct s as [|a s]; [done |]. simpl.
  destruct (Ascii.eqb_spec a "/") as [->|Hne]; [done |].
  unfold posixpath.isabs. simpl. done.
Qed.

Lemma join_cons (sep x : string) (l : list string) :
  PyStr.join sep (x :: l) =
  match l with [] => x | _ => x +:+ sep +:+ PyStr.join sep l end.
Proof. by destruct l. Qed.

Lemma last_all_empty (t : list string) :
  t ≠ [] → filter (λ x, x ≠ "") t = [] → last t = Some "".
Proof.
  induction t as [|x t IH]; [done |]. intros _ H.
  rewrite filter_cons in H. case_decide as Hx; [done |].
  subst x.
  destruct t as [|y t]; [done |]. rewrite last_cons_cons. by apply IH.
Qed.

(** [squeeze] in terms of the components of the path. *)
Lemma squeeze_components (s : string) :
  squeeze true s =
    PyStr.join "/" (nonempty_components s) +:+ trailing_separator s
  ∧ match PyStr.split "/" s with
    | h :: t => squeeze false s = h +:+ after_first t
    | [] => True
    end.
Proof.
  unfold trailing_separator, nonempty_components.
  induction s as [|a s [IHt IHf]]; [done |]. simpl.
  destruct (split_cons "/" s) as (h & t & Hs). rewrite Hs in *.
  destruct (Ascii.eqb a "/") eqn:E.
  - rewrite filter_cons_False by (intros ?; done). rewrite last_cons_cons.
    split; [done |]. rewrite IHt. done.
  - rewrite filter_cons_True by done. rewrite IHf. split; [|done].
    rewrite join_cons. rewrite bool_decide_eq_true_2 by done.
    destruct t as [|y t].
    + simpl. by rewrite !append_empty_r.
    + rewrite last_cons_cons. unfold after_first.
      destruct (filter (λ x, x ≠ "") (y :: t)) as [|z l] eqn:F.
      * rewrite (last_all_empty (y :: t)) by done. done.
      * rewrite bool_decide_eq_true_2 by done.
        rewrite !app_cons, !append_assoc. done.
Qed.

(** ** Path normalisation *)

(** C4: [normpath] is idempotent, and its result is absolute exactly when
    its argument is. *)
Theorem normpath_idempotent_isabs (path : string) :
  normpath (normpath path) = normpath path
  ∧ posixpath.isabs (normpath path) = posixpath.isabs path.
Proof.
  rewrite !normpath_squeeze. split.
  - apply squeeze_idempotent.
  - apply isabs_squeeze.
Qed.

(** C9, as claimed: a trailing separator does not disappear with the empty
    component it produces. *)
Lemma normpath_keeps_trailing_separator :
  normpath "a/" ≠ without_empty_components "a/"
  ∧ normpath "a/" = "a/"
  ∧ PyStr.split "/" (normpath "a/") = ["a"; ""].
Proof. by vm_compute. Qed.

(** C9, amended: [normpath] keeps the named components and the root; the
    empty components of repeated and leading separators are dropped, a
    separator after the last named component stays as one slash.  So
    [normpath "a//b" = normpath "a/b"], and the empty path is returned as it
    is. *)
Theorem normpath_components (path : string) :
  normpath path = without_empty_components path +:+ trailing_separator path
  ∧ normpath "a//b" = normpath "a/b"
  ∧ normpath "" = "".
Proof.
  split; [|done]. rewrite normpath_squeeze.
  destruct (squeeze_components path) as [Ht Hf].
  unfold without_empty_components.
  destruct (posixpath.isabs path) eqn:A.
  - destruct path as [|a s]; [done |]. unfold posixpath.isabs in A.
    simpl in A. destruct (Ascii.eqb_spec "/" a) as [<-|]; [|done].
    simpl in Ht |- *. rewrite Ht. by rewrite append_assoc.
  - rewrite <-(squeeze_relative _ A), Ht. done.
Qed.

(** ** The branch-name pattern *)

Lemma match_here_literal (l : string) (pat : list re.item) (s : string) :
  re.match_here (re.literal l ++ pat) s =
  if PyStr.startswith l s
  then option_map (String.app l) (re.match_here pat (PyStr.drop (String.length l) s))
  else None.
Proof.
  revert s. induction l as [|c l IH]; intros s; simpl.
  - by destruct (re.match_here pat s).
  - destruct s as [|d s]; [done |].
    destruct (Ascii.eqb_spec c d) as [<-|]; [|done].
    rewrite IH. destruct (PyStr.startswith l s); [|done].
    by destruct (re.match_here pat _).
Qed.

Lemma plus_here_run (accepts : ascii → bool) (s : string) :
  re.plus_here accepts (λ _, Some "") s =
  match run_of accepts s with
  | EmptyString => None
  | r => Some r
  end.
Proof.
  induction s as [|c s IH]; simpl; [done |].
  destruct (accepts c); [|done]. rewrite IH.
  by destruct (run_of accepts s).
Qed.

(** The pattern at the start of [s]: "release_" and the whole run of digits
    and dots after it, when the run is not empty. *)
Lemma match_here_release (s : string) :
  re.match_here release_pattern s =
  if release_at s
  then Some ("release_" +:+ run_of digit_or_dot (PyStr.drop 8 s))
  else None.
Proof.
  unfold release_pattern, release_at. rewrite match_here_literal.
  destruct (PyStr.startswith "release_" s); [|done].
  change (String.length "release_") with 8. cbn [re.match_here].
  rewrite plus_here_run. generalize (PyStr.drop 8 s) as d. intros [|c r]; [done |].
  simpl. by destruct (digit_or_dot c).
Qed.

Lemma search_unfold (pat : list re.item) (s : string) :
  re.search pat s =
  match re.match_here pat s with
  | Some m => Some m
  | None =>
      match s with
      | EmptyString => None
      | String _ s' => re.search pat s'
      end
  end.
Proof. by destruct s. Qed.


Lemma search_some (text : string) :
  has_release text = true → is_Some (re.search release_pattern text).
Proof.
  induction text as [|c text IH]; intros H;
    rewrite search_unfold, match_here_release; [done |].
  cbn [has_release] in H. destruct (release_at _); [done |]. by apply IH.
Qed.

(** [re.search] goes past the positions where no release name starts. *)
Lemma search_skip (pre s : string) :
  no_release_in_first (String.length pre) (pre +:+ s) = true →
  re.search release_pattern (pre +:+ s) = re.search release_pattern s.
Proof.
  induction pre as [|c pre IH]; [done |]. rewrite app_cons.
  cbn [String.length no_release_in_first]. intros [Hn H]%andb_true_iff. apply negb_true_iff in Hn.
  rewrite search_unfold, match_here_release, Hn. by apply IH.
Qed.

Lemma drop_app_length (a b : string) :
  PyStr.drop (String.length a) (a +:+ b) = b.
Proof. induction a as [|c a IH]; [by destruct b | by rewrite app_cons]. Qed.

Lemma startswith_app (a b : string) : PyStr.startswith a (a +:+ b) = true.
Proof.
  induction a as [|c a IH]; [done |]. rewrite app_cons. simpl.
  by rewrite Ascii.eqb_refl.
Qed.

Lemma run_of_app (accepts : ascii → bool) (run post : string) :
  run_of accepts run = run →
  match post with String c _ => accepts c | EmptyString => false end = false →
  run_of accepts (run +:+ post) = run.
Proof.
  intros Hr Hp. induction run as [|c run IH].
  - rewrite app_nil_l. destruct post as [|d post]; [done |]. simpl in *.
    by rewrite Hp.
  - rewrite app_cons. simpl in *. destruct (accepts c); [|done].
    injection Hr as Hr. by rewrite IH.
Qed.

(** A release name followed by something that is not a digit or a dot is
    matched whole. *)
Lemma search_release_here (run post : string) :
  run ≠ "" → run_of digit_or_dot run = run →
  match post with String c _ => digit_or_dot c | EmptyString => false end = false →
  re.search release_pattern ("release_" +:+ run +:+ post)
  = Some ("release_" +:+ run).
Proof.
  intros Hne Hr Hp. rewrite search_unfold, match_here_release.
  unfold release_at.
  rewrite startswith_app.
  change 8 with (String.length "release_"). rewrite drop_app_length.
  rewrite run_of_app by done.
  destruct run as [|c run]; [done |]. rewrite app_cons. simpl in *.
  by destruct (digit_or_dot c).
Qed.


Lemma get_current_git_branch_search (env : Env) (w : World) (text : string) :
  program_output env git_log_argv (cwd w) (fs w) = (0%Z, text) →
  (get_current_git_branch env w).1 =
  match re.search release_pattern text with
  | Some m => Ok m
  | None => Raise (ValueError "Expected branch name of form release_xxx")
  end.
Proof.
  intros H. unfold get_current_git_branch, subprocess_check_output, bind, call.
  fold git_log_argv. cbn [cwd fs log_event]. rewrite H. cbn [Z.eqb].
  by destruct (re.search release_pattern text).
Qed.

Lemma has_release_here (s : string) :
  release_at s = true → has_release s = true.
Proof. intros H. destruct s; cbn [has_release]; by rewrite H. Qed.

(** [has_release] says what its name says. *)
Lemma has_release_substring (text : string) :
  has_release text = true ↔
  ∃ name, is_release_name name ∧ substring_of name text.
Proof.
  split.
  - induction text as [|c text IH]; cbn [has_release].
    + rewrite orb_false_r. intros H. by vm_compute in H.
    + intros [H|H]%orb_true_iff.
      * unfold release_at in H. apply andb_true_iff in H as [Hs Hd].
        exists ("release_" +:+ run_of digit_or_dot
                   (PyStr.drop 8 (String c text))).
        split.
        -- eexists. split; [done |]. split.
           ++ destruct (PyStr.drop 8 (String c text)) as [|d r]; [done |].
              cbn [run_of]. by rewrite Hd.
           ++ generalize (PyStr.drop 8 (String c text)) as r.
              induction r as [|d r IHr]; [done |]. cbn [run_of].
              destruct (digit_or_dot d) eqn:E; [|done].
              cbn [run_of]. by rewrite E, IHr.
        -- exists "". revert Hs Hd. generalize (String c text) as s. intros s.
           do 8 (destruct s as [|? s]; [done |]).
           cbn [PyStr.startswith PyStr.drop].
           repeat match goal with
           | |- context [Ascii.eqb ?a ?b] =>
               destruct (Ascii.eqb_spec a b) as [<-|]; [|done]
           end.
           intros _ _.
           exists (PyStr.drop (String.length (run_of digit_or_dot s)) s).
           rewrite app_nil_l, append_assoc.
           rewrite !app_cons, app_nil_l. do 8 f_equal.
           clear. induction s as [|d s IH]; [done |]. cbn [run_of].
           destruct (digit_or_dot d); [|done].
           rewrite app_cons. cbn [String.length PyStr.drop]. by rewrite <-IH.
      * destruct (IH H) as (name & Hn & pre & post & ->).
        exists name. split; [done |]. by exists (String c pre), post.
  - intros (name & (run & -> & Hne & Hrun) & pre & post & ->).
    induction pre as [|c pre IH].
    + rewrite app_nil_l. destruct run as [|d run]; [done |].
      cbn [run_of] in Hrun. destruct (digit_or_dot d) eqn:E; [|done].
      apply has_release_here. unfold release_at.
      rewrite !app_cons, !app_nil_l, !app_cons.
      cbn [PyStr.startswith PyStr.drop]. rewrite !Ascii.eqb_refl.
      by rewrite E.
    + rewrite app_cons. cbn [has_release]. rewrite IH. apply orb_true_r.
Qed.

(** ** The branch-name resolver *)



(** C10: the resolver returns the release name that starts leftmost in the
    text, whatever follows it, with the whole run of digits and dots after
    "release_"; any non-empty run of digits and dots is accepted, so that
    [release_1..] is a branch name. *)
Theorem get_current_git_branch_leftmost
    (env : Env) (w : World) (pre run post : string) :
  program_output env git_log_argv (cwd w) (fs w)
    = (0%Z, pre +:+ "release_" +:+ run +:+ post) →
  no_release_in_first (String.length pre) (pre +:+ "release_" +:+ run +:+ post)
    = true →
  run ≠ "" →
  run_of digit_or_dot run = run →
  match post with String c _ => digit_or_dot c | EmptyString => false end
    = false →
  (get_current_git_branch env w).1 = Ok ("release_" +:+ run).
Proof.
  intros Hout Hpre Hne Hrun Hpost.
  rewrite (get_current_git_branch_search env w _ Hout).
  rewrite search_skip by done.
  by rewrite search_release_here.
Qed.

Lemma get_current_git_branch_leftmost_witness :
  (get_current_git_branch
     (env_with_git "" " (HEAD -> release_1.., release_2.0)") sample_world).1
  = Ok "release_1..".
Proof.
  apply (get_current_git_branch_leftmost
           (env_with_git "" " (HEAD -> release_1.., release_2.0)")
           sample_world " (HEAD -> " "1.." ", release_2.0)");
    [reflexivity | reflexivity | discriminate | reflexivity | reflexivity].
Defined.

(** ** Reasoning on computations *)

Section Preserves.

Variable R : World → World → Prop.
Hypothesis R_refl : ∀ w, R w w.
Hypothesis R_trans : ∀ a b c, R a b → R b c → R a c.

Lemma preserves_ret {A} (a : A) : preserves R (ret a).
Proof. intros w. apply R_refl. Qed.

Lemma preserves_raise {A} (e : exn) : preserves R (@raise A e).
Proof. intros w. apply R_refl. Qed.

Lemma preserves_bind {A B} (m : M A) (k : A → M B) :
  preserves R m → (∀ a, preserves R (k a)) → preserves R (bind m k).
Proof.
  intros Hm Hk w. unfold bind. specialize (Hm w).
  destruct (m w) as [[a|e] w1]; [|done].
  eapply R_trans; [exact Hm | apply Hk].
Qed.

Lemma preserves_try_except {A} (m : M A) (h : exn → option (M A)) :
  preserves R m → (∀ e k, h e = Some k → preserves R k) →
  preserves R (try_except m h).
Proof.
  intros Hm Hh w. unfold try_except. specialize (Hm w).
  destruct (m w) as [[a|e] w1]; [done |].
  destruct (h e) as [k|] eqn:E; [|done].
  eapply R_trans; [exact Hm | by eapply Hh].
Qed.

Lemma preserves_try_finally {A} (m : M A) (fin : M unit) :
  preserves R m → preserves R fin → preserves R (try_finally m fin).
Proof.
  intros Hm Hf w. unfold try_finally. specialize (Hm w).
  destruct (m w) as [r w1]. specialize (Hf w1).
  destruct (fin w1) as [[[]|e] w2]; eapply R_trans; eauto.
Qed.

Lemma preserves_for_each {A} (l : list A) (body : A → M unit) :
  (∀ x, preserves R (body x)) → preserves R (for_each l body).
Proof.
  intros Hb. induction l as [|x l IH]; simpl.
  - apply preserves_ret.
  - apply preserves_bind; [apply Hb | done].
Qed.

Lemma preserves_call {A} (ev : event) (m : M A) :
  (∀ w, R w (log_event ev w)) → preserves R m → preserves R (call ev m).
Proof. intros He Hm w. unfold call. eapply R_trans; [apply He | apply Hm]. Qed.

End Preserves.

Lemma same_log_refl w : same_log w w.
Proof. done. Qed.
Lemma same_log_trans a b c : same_log a b → same_log b c → same_log a c.
Proof. unfold same_log. congruence. Qed.
Lemma keeps_dirs_refl w : keeps_dirs w w.
Proof. split; [by intros p | done]. Qed.
Lemma keeps_dirs_trans a b c : keeps_dirs a b → keeps_dirs b c → keeps_dirs a c.
Proof.
  intros [H1 E1] [H2 E2]. split; [|congruence]. intros p Hp. by apply H2, H1.
Qed.

(** The side conditions on the relation. *)
Ltac rel_side :=
  solve [ assumption | exact same_log_refl | exact same_log_trans
        | exact keeps_dirs_refl | exact keeps_dirs_trans | auto ].

(** The structural steps of a [preserves] goal. *)
Ltac preserves_step :=
  first
    [ apply preserves_ret; rel_side
    | apply preserves_raise; rel_side
    | apply preserves_bind; [rel_side .. | | intros ?]
    | apply preserves_try_except; [rel_side .. | | intros ? ? ?]
    | apply preserves_try_finally; [rel_side .. | | ]
    | apply preserves_for_each; [rel_side .. | intros ?] ].


#[local] Hint Resolve same_log_refl same_log_trans keeps_dirs_refl
  keeps_dirs_trans : core.

Lemma exists_impl_preserves R name :
  (∀ w, R w w) → preserves R (exists_impl name).
Proof. intros HR w. apply HR. Qed.

Lemma isdir_impl_preserves R name :
  (∀ w, R w w) → preserves R (isdir_impl name).
Proof. intros HR w. apply HR. Qed.

Lemma lift_read_preserves R {A} name (f : _ → _ → errno + A) :
  (∀ w, R w w) → preserves R (lift_read name f).
Proof. intros HR w. unfold lift_read. destruct (f _ _); apply HR. Qed.

#[local] Hint Resolve exists_impl_preserves isdir_impl_preserves
  lift_read_preserves : core.

(** *** What the library does inside a call *)

(** A relation that [mkdir] and writing a file preserve is preserved by the
    library functions made of them. *)
Section Impl.

Variable R : World → World → Prop.
Hypothesis R_refl : ∀ w, R w w.
Hypothesis R_trans : ∀ a b c, R a b → R b c → R a c.
Hypothesis R_mkdir : ∀ name, preserves R (mkdir_impl name).
Hypothesis R_write : ∀ name data, preserves R (write_impl name data).

#[local] Hint Resolve R_refl R_trans R_mkdir R_write : core.

Lemma makedirs_rec_preserves fuel name : preserves R (makedirs_rec fuel name).
Proof.
  revert name. induction fuel as [|fuel IH]; intros name; cbn [makedirs_rec].
  - preserves_step.
  - destruct (posixpath.split name) as [h t].
    destruct (if bool_decide (t = "") then posixpath.split h else (h, t))
      as [head tail].
    preserves_step.
    + destruct (_ && _); [|preserves_step].
      preserves_step; [auto |]. destruct a; [preserves_step |].
      preserves_step; [|preserves_step].
      preserves_step; [apply IH |].
      destruct e as [[] ?| | | | | | |]; simplify_eq/=; preserves_step.
    + destruct a; [preserves_step | auto].
Qed.

Lemma makedirs_impl_preserves name : preserves R (makedirs_impl name).
Proof. apply makedirs_rec_preserves. Qed.

Lemma copyfile_impl_preserves src dst : preserves R (copyfile_impl src dst).
Proof.
  unfold copyfile_impl. preserves_step; [intros w; apply R_refl |].
  destruct a; [preserves_step |]. preserves_step; [unfold read_impl; auto |].
  auto.
Qed.

Lemma extract_member_preserves targetpath member :
  preserves R (extract_member targetpath member).
Proof.
  unfold extract_member. preserves_step.
  - destruct (negb _); [|preserves_step]. preserves_step; [auto |].
    destruct a; [preserves_step | apply makedirs_impl_preserves].
  - destruct (PyStr.endswith_char _ _); [|auto].
    preserves_step; [auto |]. destruct a0; [preserves_step | auto].
Qed.

Lemma mkdtemp_loop_preserves names : preserves R (mkdtemp_loop names).
Proof.
  induction names as [|file names IH]; simpl; [preserves_step |].
  preserves_step.
  - preserves_step; [auto | preserves_step].
  - destruct e as [[] ?| | | | | | |]; simplify_eq/=; done.
Qed.

End Impl.

Lemma mkdir_impl_same_log name : preserves same_log (mkdir_impl name).
Proof. intros w. unfold mkdir_impl, lift_fs. by destruct (Sys.mkdir _ _ _). Qed.

Lemma write_impl_same_log name data : preserves same_log (write_impl name data).
Proof.
  intros w. unfold write_impl, lift_fs. by destruct (Sys.write_file _ _ _ _).
Qed.

#[local] Hint Resolve mkdir_impl_same_log write_impl_same_log : core.

(** A call whose inside leaves the log alone adds its one event. *)
Lemma log_call {A} (ev : event) (m : M A) (w : World) :
  preserves same_log m → log (call ev m w).2 = log w ++ [ev].
Proof. intros H. unfold call. by rewrite (H (log_event ev w)). Qed.

Lemma log_print (line : string) (w : World) :
  print line w = (Ok tt, log_event (Print line) w).
Proof. done. Qed.

Lemma print_then {A} (line : string) (m : M A) (w : World) :
  (print line ;; m)%py w = m (log_event (Print line) w).
Proof. done. Qed.

Lemma log_try_except_pass (m : M unit) (h : exn → option (M unit)) (w : World) :
  (∀ e k, h e = Some k → k = ret tt) →
  log (try_except m h w).2 = log (m w).2.
Proof.
  intros Hh. unfold try_except. destruct (m w) as [[a|e] w1]; [done |].
  destruct (h e) as [k|] eqn:E; [|done]. by rewrite (Hh _ _ E).
Qed.

Lemma shutil_copy_log (src dst : string) (w : World) :
  log (shutil_copy src dst w).2 = log w ++ [Copy src dst].
Proof.
  unfold shutil_copy. apply log_call. preserves_step; [auto |].
  apply copyfile_impl_preserves; rel_side.
Qed.

Lemma os_makedirs_log (name : string) (w : World) :
  log (os_makedirs name w).2 = log w ++ [Makedirs name].
Proof.
  unfold os_makedirs. apply log_call, makedirs_impl_preserves; rel_side.
Qed.

Lemma subprocess_check_call_log (env : Env) (command : string) (w : World) :
  log (subprocess_check_call env command w).2 = log w ++ [CheckCall command].
Proof.
  unfold subprocess_check_call. apply log_call. intros w'.
  destruct (shell _ _ _ _) as [rc m]. by destruct (Z.eqb rc 0).
Qed.

Lemma urlretrieve_log (env : Env) (url filename : string) (w : World) :
  log (urlretrieve env url filename w).2 = log w ++ [Urlretrieve url filename].
Proof.
  unfold urlretrieve. apply log_call.
  destruct (net env url); [auto | preserves_step].
Qed.

(** ** Narration *)

(** C5, as claimed: [cd] prints its line after it has changed the working
    directory, and prints nothing when the change fails; neither the change
    back nor the end-to-end run is narrated. *)
Lemma cd_prints_after_chdir :
  log (cd "jvm-packages/" (λ _, ret tt) sample_world).2
    = [Getcwd; Chdir "jvm-packages/"; Print "cd jvm-packages/"; Chdir "/repo"]
  ∧ narrated None (log (cd "jvm-packages/" (λ _, ret tt) sample_world).2)
    = false
  ∧ (cd "no-such-directory" (λ _, ret tt) sample_world).1
    = Raise (OSError ENOENT "no-such-directory")
  ∧ log (cd "no-such-directory" (λ _, ret tt) sample_world).2
    = [Getcwd; Chdir "no-such-directory"]
  ∧ narrated None (log (main sample_env sample_argv sample_world).2) = false.
Proof. vm_compute. repeat split; reflexivity. Qed.

Lemma cp_log (source target : string) (w : World) :
  log (cp source target w).2
  = log w ++ [Print ("cp " +:+ normpath source +:+ " " +:+ normpath target);
              Copy (normpath source) (normpath target)].
Proof.
  unfold cp. rewrite print_then, shutil_copy_log. cbn [log log_event].
  by rewrite <-app_assoc.
Qed.

Lemma maybe_makedirs_log (path : string) (w : World) :
  log (maybe_makedirs path w).2
  = log w ++ [Print ("mkdir -p " +:+ normpath path); Makedirs (normpath path)].
Proof.
  unfold maybe_makedirs. rewrite print_then, log_try_except_pass.
  - rewrite os_makedirs_log. cbn [log log_event]. by rewrite <-app_assoc.
  - intros e k He. destruct e as [e' ?| | | | | | |]; try done.
    destruct (bool_decide (e' ≠ EEXIST)); by simplify_eq.
Qed.

Lemma run_log (env : Env) (command : string) (w : World) :
  log (run env command w).2 = log w ++ [Print command; CheckCall command].
Proof.
  unfold run. rewrite print_then, subprocess_check_call_log.
  cbn [log log_event]. by rewrite <-app_assoc.
Qed.

Lemma retrieve_log (env : Env) (url filename : string) (w : World) :
  log (retrieve env url filename w).2
  = log w ++ [Print (url +:+ " -> " +:+ filename); Urlretrieve url filename].
Proof.
  unfold retrieve. rewrite print_then, urlretrieve_log.
  cbn [log log_event]. by rewrite <-app_assoc.
Qed.

(** C5, amended: each of [cp], [maybe_makedirs], [run] and [retrieve]
    prints the line of its action and then attempts the action, whether the
    action succeeds or not; nothing comes between the two. *)
Theorem helpers_print_before_acting (env : Env) (w : World) :
  (∀ source target,
     log (cp source target w).2
     = log w ++ [Print ("cp " +:+ normpath source +:+ " " +:+ normpath target);
                 Copy (normpath source) (normpath target)])
  ∧ (∀ path,
       log (maybe_makedirs path w).2
       = log w ++ [Print ("mkdir -p " +:+ normpath path);
                   Makedirs (normpath path)])
  ∧ (∀ command,
       log (run env command w).2
       = log w ++ [Print command; CheckCall command])
  ∧ (∀ url filename,
       log (retrieve env url filename w).2
       = log w ++ [Print (url +:+ " -> " +:+ filename);
                   Urlretrieve url filename]).
Proof.
  repeat split; intros.
  - apply cp_log.
  - apply maybe_makedirs_log.
  - apply run_log.
  - apply retrieve_log.
Qed.

(** ** The working directory *)

Lemma resolve_absolute (m : gmap (list string) node) (wd wd' : list string)
    (name : string) :
  posixpath.isabs name = true → Sys.resolve m wd name = Sys.resolve m wd' name.
Proof. intros H. unfold Sys.resolve. by rewrite H. Qed.

Lemma chdir_absolute (m : gmap (list string) node) (wd wd' : list string)
    (name : string) :
  posixpath.isabs name = true → Sys.chdir m wd name = Sys.chdir m wd' name.
Proof. intros H. unfold Sys.chdir. by rewrite (resolve_absolute m wd wd'). Qed.

Lemma os_getcwd_inv (w wa : World) (c : string) :
  os_getcwd w = (Ok c, wa) →
  c = Sys.path_string (cwd w) ∧ wa = log_event Getcwd w.
Proof.
  unfold os_getcwd, call, lift_read, Sys.getcwd. cbn.
  destruct (Sys.lookup_node _ _) as [[]|]; intros ?; by simplify_eq.
Qed.

Lemma os_chdir_unfold (name : string) (w : World) :
  os_chdir name w =
  match Sys.chdir (fs w) (cwd w) name with
  | inl e => (Raise (OSError e name), log_event (Chdir name) w)
  | inr p => (Ok tt, set_cwd p (log_event (Chdir name) w))
  end.
Proof. done. Qed.

(** Once entered, [cd] is its body under [finally: os.chdir(cwd)]. *)
Lemma cd_entered {A} (path : string) (body : string → M A)
    (w wa wb : World) (c : string) :
  os_getcwd w = (Ok c, wa) →
  os_chdir (normpath path) wa = (Ok tt, wb) →
  cd path body w =
  try_finally (body (normpath path)) (os_chdir (Sys.path_string (cwd w)))
    (log_event (Print ("cd " +:+ normpath path)) wb).
Proof.
  intros Hg Hc. destruct (os_getcwd_inv _ _ _ Hg) as [-> _].
  unfold cd, bind. by rewrite Hg, Hc.
Qed.



(** ** Path-name resolution *)

Lemma walk_app (m : gmap (list string) node) (cur : list string)
    (l1 l2 : list string) :
  Sys.walk m cur (l1 ++ l2) =
  match Sys.walk m cur l1 with
  | inr q => Sys.walk m q l2
  | inl e => inl e
  end.
Proof.
  revert cur. induction l1 as [|c l1 IH]; intros cur; [done |].
  cbn [app Sys.walk]. destruct (Sys.lookup_node m cur) as [[]|]; auto.
Qed.

(** Resolution only asks which nodes are directories. *)
Lemma walk_mono (m m' : gmap (list string) node) (cur : list string)
    (l : list string) (q : list string) :
  dirs_le m m' → Sys.walk m cur l = inr q → Sys.walk m' cur l = inr q.
Proof.
  intros Hle. revert cur. induction l as [|c l IH]; intros cur; [done |].
  cbn [Sys.walk]. destruct (Sys.lookup_node m cur) as [[]|] eqn:E; try done.
  rewrite (Hle _ E). apply IH.
Qed.

Lemma resolve_mono (m m' : gmap (list string) node) (wd : list string)
    (name : string) (q : list string) :
  dirs_le m m' → Sys.resolve m wd name = inr q → Sys.resolve m' wd name = inr q.
Proof.
  intros Hle. unfold Sys.resolve. case_bool_decide; [done |].
  by apply walk_mono.
Qed.

Lemma walk_step_empty (cur : list string) : Sys.walk_step "" cur = cur.
Proof. reflexivity. Qed.

Lemma walk_thinned (m : gmap (list string) node) (cur : list string)
    (l l' : list string) :
  thinned l l' → Sys.walk m cur l = Sys.walk m cur l'.
Proof.
  intros H. revert cur. induction H as [|c l l' H IH|l l' Hne H IH]; intros cur.
  - done.
  - cbn [Sys.walk]. destruct (Sys.lookup_node m cur) as [[]|]; auto.
  - cbn [Sys.walk]. rewrite walk_step_empty, <-IH.
    destruct l as [|c l]; [done |]. cbn [Sys.walk].
    by destruct (Sys.lookup_node m cur) as [[]|].
Qed.

Lemma thinned_refl (l : list string) : thinned l l.
Proof. induction l; by constructor. Qed.

(** The components of a squeezed path are those of the path, thinned. *)
Lemma split_squeeze (s : string) :
  thinned (PyStr.split "/" s) (PyStr.split "/" (squeeze true s))
  ∧ match PyStr.split "/" s, PyStr.split "/" (squeeze false s) with
    | h :: t, h' :: t' => h = h' ∧ thinned t t'
    | _, _ => False
    end.
Proof.
  induction s as [|a s [IHt IHf]].
  - split; [apply thinned_refl | split; [done | constructor]].
  - cbn [PyStr.split squeeze].
    destruct (split_cons "/" s) as (h & t & Hs).
    destruct (split_cons "/" (squeeze false s)) as (h' & t' & Hs').
    rewrite Hs, Hs' in IHf. destruct IHf as [<- IHf].
    destruct (Ascii.eqb a "/") eqn:E.
    + split.
      * apply thinned_drop; [apply split_nonempty | done].
      * cbn [PyStr.split]. rewrite Ascii.eqb_refl. done.
    + cbn [PyStr.split]. rewrite E, Hs, Hs'. split; [|done].
      by constructor.
Qed.

Lemma squeeze_empty (s : string) : squeeze false s = "" ↔ s = "".
Proof.
  destruct s as [|a s]; [done |]. cbn. by destruct (Ascii.eqb a "/").
Qed.

(** A path and its normalisation name the same node. *)
Lemma resolve_normpath (m : gmap (list string) node) (wd : list string)
    (name : string) :
  Sys.resolve m wd (normpath name) = Sys.resolve m wd name.
Proof.
  rewrite normpath_squeeze. unfold Sys.resolve.
  rewrite isabs_squeeze.
  destruct (decide (name = "")) as [->|Hne]; [done |].
  rewrite !bool_decide_eq_false_2; [|done | by rewrite squeeze_empty].
  destruct (split_squeeze name) as [_ H].
  destruct (PyStr.split "/" name) as [|h t]; [done |].
  destruct (PyStr.split "/" (squeeze false name)) as [|h' t']; [done |].
  destruct H as [<- H]. symmetry. apply walk_thinned. by constructor.
Qed.

Lemma stat_normpath (m : gmap (list string) node) (wd : list string)
    (name : string) :
  Sys.stat m wd (normpath name) = Sys.stat m wd name.
Proof. unfold Sys.stat. by rewrite resolve_normpath. Qed.

Lemma read_file_normpath (m : gmap (list string) node) (wd : list string)
    (name : string) :
  Sys.read_file m wd (normpath name) = Sys.read_file m wd name.
Proof. unfold Sys.read_file. by rewrite resolve_normpath. Qed.

Lemma lookup_node_insert (m : gmap (list string) node) (p q : list string)
    (n : node) :
  p ≠ [] →
  Sys.lookup_node (<[p := n]> m) q
  = if decide (p = q) then Some n else Sys.lookup_node m q.
Proof.
  intros Hp. destruct q as [|c q]; cbn.
  - by rewrite decide_False.
  - by rewrite lookup_insert.
Qed.

Lemma dirs_le_insert_file (m : gmap (list string) node) (p : list string)
    (data : string) :
  Sys.lookup_node m p ≠ Some Dir → dirs_le m (<[p := File data]> m).
Proof.
  intros Hp q Hq. rewrite lookup_node_insert.
  - case_decide; [by subst | done].
  - by intros ->.
Qed.

Lemma dirs_le_insert_dir (m : gmap (list string) node) (p : list string) :
  p ≠ [] → dirs_le m (<[p := Dir]> m).
Proof. intros Hp q Hq. rewrite lookup_node_insert by done. by case_decide. Qed.

(** ** The file copier *)

(** [cp] is [shutil.copyfile] from the normalised source to the destination,
    after the print and the call have been logged. *)
Lemma cp_copyfile (source target : string) (w : World) :
  cp source target w =
  copyfile_impl (normpath source) (copy_destination w source target)
    (log_event (Copy (normpath source) (normpath target))
       (log_event
          (Print ("cp " +:+ normpath source +:+ " " +:+ normpath target)) w)).
Proof.
  unfold cp. rewrite print_then. unfold shutil_copy, call, bind, isdir_impl,
    copy_destination. cbn [fs cwd log_event].
  by destruct (Sys.stat (fs w) (cwd w) (normpath target)) as [|[]].
Qed.

(** What [shutil.copyfile] does, by cases on the system calls it makes. *)
Lemma copyfile_impl_cases (src dst : string) (w : World) :
  copyfile_impl src dst w =
  match Sys.resolve (fs w) (cwd w) src with
  | inl e => (Raise (OSError e src), w)
  | inr p =>
      match Sys.lookup_node (fs w) p with
      | None => (Raise (OSError ENOENT src), w)
      | Some n =>
          if bool_decide (Sys.resolve (fs w) (cwd w) dst = inr p)
          then (Raise (SameFileError src dst), w)
          else
            match n with
            | Dir => (Raise (OSError EISDIR src), w)
            | File data =>
                match Sys.write_file (fs w) (cwd w) dst data with
                | inl e => (Raise (OSError e dst), w)
                | inr m => (Ok tt, set_fs m w)
                end
            end
      end
  end.
Proof.
  unfold copyfile_impl, bind, read_impl, write_impl, lift_read, lift_fs,
    Sys.read_file, raise.
  destruct (Sys.resolve (fs w) (cwd w) src) as [e|p] eqn:Es.
  { cbn beta iota. by rewrite Es. }
  destruct (Sys.resolve (fs w) (cwd w) dst) as [e|q] eqn:Ed.
  { rewrite bool_decide_eq_false_2 by done. cbn beta iota. rewrite Es.
    by destruct (Sys.lookup_node (fs w) p) as [[]|]. }
  destruct (Sys.lookup_node (fs w) p) as [n|] eqn:En.
  2:{ rewrite (bool_decide_eq_false_2 (is_Some None)) by (by intros [? ?]).
      rewrite andb_false_r. cbn beta iota. by rewrite Es, En. }
  rewrite (bool_decide_eq_true_2 (is_Some (Some n))) by done.
  rewrite andb_true_r.
  destruct (decide (p = q)) as [<-|Hne].
  - by rewrite !bool_decide_eq_true_2.
  - rewrite !bool_decide_eq_false_2 by congruence. cbn beta iota.
    rewrite Es, En. by destruct n.
Qed.

(** C8: [cp] on a source path that names nothing raises the error of the
    failed lookup and leaves the file system as it was; and when [cp] returns,
    the destination file holds the content the source had, which the source
    still has. *)
Theorem cp_copies_or_fails (source target : string) (w : World) :
  (∀ e, Sys.stat (fs w) (cwd w) source = inl e →
        (cp source target w).1 = Raise (OSError e (normpath source))
        ∧ fs (cp source target w).2 = fs w)
  ∧ ((cp source target w).1 = Ok tt →
     ∃ data,
       Sys.read_file (fs w) (cwd w) source = inr data
       ∧ Sys.read_file (fs (cp source target w).2) (cwd (cp source target w).2)
           (copy_destination w source target) = inr data
       ∧ Sys.read_file (fs (cp source target w).2) (cwd (cp source target w).2)
           source = inr data).
Proof.
  rewrite cp_copyfile, copyfile_impl_cases. cbn [fs cwd log_event].
  rewrite <-(stat_normpath _ _ source), <-(read_file_normpath _ _ source).
  unfold Sys.stat, Sys.read_file.
  destruct (Sys.resolve (fs w) (cwd w) (normpath source)) as [e|p] eqn:Es.
  { split; [by intros ? [= <-] | done]. }
  destruct (Sys.lookup_node (fs w) p) as [n|] eqn:En.
  2:{ split; [by intros ? [= <-] | done]. }
  split; [done |].
  case_bool_decide as Hsame; [done |].
  destruct n as [data|]; [|done].
  unfold Sys.write_file.
  destruct (Sys.resolve (fs w) (cwd w) (copy_destination w source target))
    as [e|q] eqn:Ed; [done |].
  assert (p ≠ q) as Hpq by congruence.
  assert (Sys.lookup_node (fs w) q ≠ Some Dir →
          dirs_le (fs w) (<[q := File data]> (fs w))) as Hle
    by apply dirs_le_insert_file.
  assert (q ≠ [] → Sys.lookup_node (<[q := File data]> (fs w)) q
                   = Some (File data)
                   ∧ Sys.lookup_node (<[q := File data]> (fs w)) p
                     = Some (File data)) as Hlk.
  { intros Hq. rewrite !lookup_node_insert by done.
    rewrite decide_True by done. by rewrite decide_False. }
  destruct (Sys.lookup_node (fs w) q) as [[]|] eqn:Eq; [| done |];
    cbn [fst snd fs cwd set_fs log_event]; intros _; exists data;
    (split; [done |]);
    (assert (q ≠ []) as Hq by (by intros ->));
    destruct (Hlk Hq) as [H1 H2];
    rewrite <-(resolve_normpath (<[q := File data]> (fs w)) _ source);
    rewrite (resolve_mono _ _ _ _ _ (Hle ltac:(done)) Ed),
            (resolve_mono _ _ _ _ _ (Hle ltac:(done)) Es), H1, H2; done.
Qed.

Lemma cp_copies_or_fails_witness :
  ((cp "no-such-file" "jvm-packages" sample_world).1
     = Raise (OSError ENOENT "no-such-file")
   ∧ fs (cp "no-such-file" "jvm-packages" sample_world).2 = sample_fs)
  ∧ ∃ data,
      Sys.read_file sample_fs ["repo"] "python-package//xgboost/tracker.py"
        = inr data
      ∧ Sys.read_file
          (fs (cp "python-package//xgboost/tracker.py" "jvm-packages"
                 sample_world).2) ["repo"] "jvm-packages/tracker.py"
        = inr data
      ∧ Sys.read_file
          (fs (cp "python-package//xgboost/tracker.py" "jvm-packages"
                 sample_world).2) ["repo"] "python-package//xgboost/tracker.py"
        = inr data.
Proof.
  split.
  - exact (proj1 (cp_copies_or_fails "no-such-file" "jvm-packages" sample_world)
             ENOENT eq_refl).
  - exact (proj2 (cp_copies_or_fails "python-package//xgboost/tracker.py"
                    "jvm-packages" sample_world) eq_refl).
Defined.

(** ** The temporary directory *)

Lemma mkdir_impl_keeps_dirs name : preserves keeps_dirs (mkdir_impl name).
Proof.
  intros w. unfold mkdir_impl, lift_fs, Sys.mkdir.
  destruct (Sys.resolve_create _ _ _) as [e|p]; [apply keeps_dirs_refl |].
  destruct (Sys.lookup_node (fs w) p) eqn:E; [apply keeps_dirs_refl |].
  split; [|done]. apply dirs_le_insert_dir. by intros ->.
Qed.

Lemma write_impl_keeps_dirs name data :
  preserves keeps_dirs (write_impl name data).
Proof.
  intros w. unfold write_impl, lift_fs, Sys.write_file.
  destruct (Sys.resolve _ _ _) as [e|p]; [apply keeps_dirs_refl |].
  destruct (Sys.lookup_node (fs w) p) as [[]|] eqn:E;
    try apply keeps_dirs_refl;
    (split; [|done]); apply dirs_le_insert_file; by rewrite E.
Qed.

Lemma log_event_keeps_dirs ev w : keeps_dirs w (log_event ev w).
Proof. split; [by intros p | done]. Qed.

#[local] Hint Resolve mkdir_impl_keeps_dirs write_impl_keeps_dirs
  log_event_keeps_dirs : core.

Lemma cp_keeps_dirs source target : preserves keeps_dirs (cp source target).
Proof.
  unfold cp, print, shutil_copy. preserves_step.
  - apply preserves_call; [rel_side .. | auto | preserves_step].
  - apply preserves_call; [rel_side .. | auto |].
    preserves_step; [auto |]. apply copyfile_impl_preserves; rel_side.
Qed.

Lemma retrieve_keeps_dirs env url filename :
  preserves keeps_dirs (retrieve env url filename).
Proof.
  unfold retrieve, print, urlretrieve. preserves_step.
  - apply preserves_call; [rel_side .. | auto | preserves_step].
  - apply preserves_call; [rel_side .. | auto |].
    destruct (net env url); [auto | preserves_step].
Qed.

Lemma gpu_jar_body_keeps_dirs env version tempdir :
  preserves keeps_dirs (gpu_jar_body env version tempdir).
Proof.
  unfold gpu_jar_body. preserves_step; [apply retrieve_keeps_dirs |].
  preserves_step.
  { unfold os_mkdir. apply preserves_call; [rel_side .. | auto | auto]. }
  preserves_step; [|apply cp_keeps_dirs].
  preserves_step.
  - unfold zipfile_ZipFile. apply preserves_call; [rel_side .. | auto |].
    preserves_step; [unfold read_impl; auto |].
    destruct (unzip env a1); preserves_step.
  - unfold extractall. apply preserves_call; [rel_side .. | auto |].
    preserves_step. apply extract_member_preserves; rel_side.
Qed.

Lemma lookup_node_remove_tree (p q : list string) (m : gmap (list string) node) :
  Sys.lookup_node (Sys.remove_tree p m) q
  = match q with
    | [] => Some Dir
    | _ => if decide (p `prefix_of` q) then None else m !! q
    end.
Proof.
  destruct q as [|c q]; [done |]. unfold Sys.remove_tree. cbn.
  rewrite map_lookup_filter. destruct (m !! (c :: q)) as [n|]; cbn.
  - case_guard; cbn in *; by case_decide.
  - by case_decide.
Qed.

Lemma dirs_le_remove_tree (p : list string) (m : gmap (list string) node) :
  dirs_le (Sys.remove_tree p m) m.
Proof.
  intros q. rewrite lookup_node_remove_tree. destruct q as [|c q]; [done |].
  by case_decide.
Qed.

Lemma drop_trailing_empty_app (l : list string) :
  ∃ k, l = Sys.drop_trailing_empty l ++ repeat "" k.
Proof.
  induction l as [|c l [k IH]]; [by exists 0 |]. cbn.
  destruct (Sys.drop_trailing_empty l) as [|d r].
  - case_bool_decide as Hc.
    + subst c. exists (S k). cbn. by rewrite IH at 1.
    + exists k. cbn. by rewrite IH at 1.
  - exists k. cbn. by rewrite IH at 1.
Qed.

Lemma walk_empties (m : gmap (list string) node) (p : list string) (k : nat) :
  Sys.lookup_node m p = Some Dir → Sys.walk m p (repeat "" k) = inr p.
Proof.
  intros H. induction k as [|k IH]; [done |]. cbn [repeat Sys.walk].
  by rewrite H, walk_step_empty.
Qed.

(** A directory that [mkdir] could create is named by the same path once it
    is there. *)
Lemma resolve_created (m : gmap (list string) node) (wd : list string)
    (name : string) (p : list string) :
  Sys.resolve_create m wd name = inr p →
  Sys.lookup_node m p = Some Dir →
  Sys.resolve m wd name = inr p.
Proof.
  unfold Sys.resolve_create, Sys.resolve. case_bool_decide; [done |].
  intros Hw Hp. destruct (drop_trailing_empty_app (PyStr.split "/" name))
    as [k Hk].
  rewrite Hk, walk_app, Hw. by apply walk_empties.
Qed.

Lemma mkdtemp_loop_ok (names : list string) (w w1 : World) (name : string) :
  mkdtemp_loop names w = (Ok name, w1) →
  ∃ p, Sys.resolve_create (fs w) (cwd w) name = inr p
       ∧ Sys.lookup_node (fs w) p = None
       ∧ w1 = set_fs (<[p := Dir]> (fs w)) w.
Proof.
  induction names as [|file names IH]; [done |]. cbn [mkdtemp_loop].
  unfold try_except, bind, mkdir_impl, lift_fs, Sys.mkdir.
  destruct (Sys.resolve_create (fs w) (cwd w) file) as [e|p] eqn:Er.
  - by destruct e.
  - destruct (Sys.lookup_node (fs w) p) eqn:El; [done |].
    cbn. intros [= <- <-]. eauto.
Qed.

(** The directory of [with tempfile.TemporaryDirectory()] is gone when the
    [with] is left, and the outcome of the body is the outcome of the whole,
    for a body that removes or replaces no directory. *)
Lemma with_TemporaryDirectory_removes (env : Env) {A} (body : string → M A)
    (w : World) :
  (∀ name, preserves keeps_dirs (body name)) →
  match call Mkdtemp (mkdtemp_loop (temp_names env)) w with
  | (Ok tempdir, w1) =>
      (exists_impl tempdir (with_TemporaryDirectory env body w).2).1 = Ok false
      ∧ (with_TemporaryDirectory env body w).1 = (body tempdir w1).1
  | (Raise e, w1) => with_TemporaryDirectory env body w = (Raise e, w1)
  end.
Proof.
  intros Hbody. unfold with_TemporaryDirectory, bind.
  destruct (call Mkdtemp _ w) as [[tempdir|e] w1] eqn:Em; [|done].
  unfold call in Em. apply mkdtemp_loop_ok in Em as (p & Hr & Hl & ->).
  cbn [fs cwd log_event] in Hr, Hl.
  assert (p ≠ []) as Hp by (by intros ->).
  unfold try_finally.
  pose proof (Hbody tempdir (set_fs (<[p:=Dir]> (fs w)) (log_event Mkdtemp w)))
    as [Hle Hcwd].
  destruct (body tempdir _) as [r w2]. cbn [snd fs cwd set_fs log_event] in *.
  assert (Sys.lookup_node (fs w2) p = Some Dir) as Hdir.
  { apply Hle. rewrite lookup_node_insert by done. by rewrite decide_True. }
  assert (Sys.resolve (fs w2) (cwd w) tempdir = inr p) as Hres.
  { apply resolve_created; [|done].
    unfold Sys.resolve_create in Hr |- *. case_bool_decide; [done |].
    eapply walk_mono; [|exact Hr]. intros q Hq. apply Hle.
    by apply dirs_le_insert_dir. }
  unfold call, rmtree_impl. cbn [fs cwd log_event]. rewrite Hcwd, Hres, Hdir.
  cbn [fst snd fs cwd set_fs]. split; [|done].
  unfold exists_impl, Sys.stat. cbn [fst fs cwd set_fs log_event].
  rewrite Hcwd.
  destruct (Sys.resolve (Sys.remove_tree p (fs w2)) (cwd w) tempdir)
    as [e|q] eqn:Eq; [done |].
  apply (resolve_mono _ (fs w2)) in Eq; [|apply dirs_le_remove_tree].
  rewrite Hres in Eq. injection Eq as <-.
  rewrite lookup_node_remove_tree. destruct p; [done |].
  by rewrite decide_True.
Qed.

(** C7: the temporary directory of the archive step does not exist when the
    step is left, whatever the download, the extraction and the copy did; the
    step fails before its body only when no temporary directory could be
    made. *)
Theorem temporary_directory_removed (env : Env) (version : string) (w : World) :
  match call Mkdtemp (mkdtemp_loop (temp_names env)) w with
  | (Ok tempdir, w1) =>
      (exists_impl tempdir (gpu_jar env version w).2).1 = Ok false
      ∧ (gpu_jar env version w).1 = (gpu_jar_body env version tempdir w1).1
  | (Raise e, w1) => gpu_jar env version w = (Raise e, w1)
  end.
Proof.
  apply with_TemporaryDirectory_removes. intros name.
  apply gpu_jar_body_keeps_dirs.
Qed.

(** ** Head and tail of a path *)

Lemma split_no_sep (c : ascii) (s : string) :
  PyStr.rfind_succ c s = 0 → PyStr.split c s = [s].
Proof.
  induction s as [|a s IH]; [done |]. cbn [PyStr.rfind_succ PyStr.split].
  destruct (PyStr.rfind_succ c s); [|done].
  destruct (Ascii.eqb a c); [done |]. intros _. by rewrite IH.
Qed.

(** The components of a path are those before its last separator and the
    tail after it. *)
Lemma split_at_last_sep (c : ascii) (s : string) (j : nat) :
  PyStr.rfind_succ c s = S j →
  PyStr.split c s = PyStr.split c (PyStr.take j s) ++ [PyStr.drop (S j) s]
  ∧ PyStr.take (S j) s = PyStr.take j s +:+ String c "".
Proof.
  revert j. induction s as [|a s IH]; [done |]. intros j.
  cbn [PyStr.rfind_succ]. destruct (PyStr.rfind_succ c s) as [|n] eqn:E.
  - destruct (Ascii.eqb_spec a c) as [->|]; [|done]. intros [= <-].
    cbn [PyStr.split PyStr.take PyStr.drop]. rewrite Ascii.eqb_refl.
    by rewrite (split_no_sep _ _ E).
  - intros [= <-]. destruct (IH n eq_refl) as [IH1 IH2].
    change (PyStr.take (S (S n)) (String a s))
      with (String a (PyStr.take (S n) s)).
    change (PyStr.take (S n) (String a s)) with (String a (PyStr.take n s)).
    change (PyStr.drop (S (S n)) (String a s)) with (PyStr.drop (S n) s).
    split; [|by rewrite IH2].
    cbn [PyStr.split]. rewrite IH1.
    destruct (Ascii.eqb a c); [done |].
    destruct (split_cons c (PyStr.take n s)) as (h & t & ->). done.
Qed.

Lemma rstrip_snoc (c : ascii) (u : string) :
  PyStr.rstrip c (u +:+ String c "") = PyStr.rstrip c u.
Proof.
  induction u as [|a u IH].
  - rewrite app_nil_l. cbn [PyStr.rstrip]. by rewrite Ascii.eqb_refl.
  - rewrite app_cons. cbn [PyStr.rstrip]. by rewrite IH.
Qed.

Lemma all_char_snoc (c : ascii) (u : string) :
  PyStr.all_char c (u +:+ String c "") = PyStr.all_char c u.
Proof.
  induction u as [|a u IH].
  - rewrite app_nil_l. cbn [PyStr.all_char]. by rewrite Ascii.eqb_refl.
  - rewrite app_cons. cbn [PyStr.all_char]. by rewrite IH.
Qed.

Lemma rstrip_empty (c : ascii) (u : string) :
  PyStr.rstrip c u = "" ↔ PyStr.all_char c u = true.
Proof.
  induction u as [|a u IH]; [done |]. cbn [PyStr.rstrip PyStr.all_char].
  destruct (PyStr.rstrip c u) eqn:E.
  - rewrite (proj1 IH eq_refl), andb_true_r. by destruct (Ascii.eqb a c).
  - split; [done |]. intros [_ H]%andb_true_iff. by apply IH in H.
Qed.

Lemma split_all_sep (c : ascii) (u : string) :
  PyStr.all_char c u = true →
  PyStr.split c u = repeat "" (S (String.length u)).
Proof.
  induction u as [|a u IH]; [done |]. cbn [PyStr.all_char PyStr.split].
  intros [-> H]%andb_true_iff. by rewrite IH.
Qed.

Lemma split_unfold (c a : ascii) (s : string) :
  PyStr.split c (String a s) =
  if Ascii.eqb a c then "" :: PyStr.split c s
  else match PyStr.split c s with
       | h :: t => String a h :: t
       | [] => [String a ""]
       end.
Proof. done. Qed.

(** Stripping the separators at the end of a path removes empty components
    at the end of its list of components. *)
Lemma split_rstrip (c : ascii) (u : string) :
  PyStr.rstrip c u ≠ "" →
  ∃ k, PyStr.split c u = PyStr.split c (PyStr.rstrip c u) ++ repeat "" k.
Proof.
  induction u as [|a u IH]; [done |]. cbn [PyStr.rstrip].
  destruct (PyStr.rstrip c u) as [|b r] eqn:E.
  - destruct (Ascii.eqb a c) eqn:Ea; [done |]. intros _.
    exists (String.length u). cbn [PyStr.split]. rewrite Ea.
    rewrite split_all_sep by (by apply rstrip_empty). done.
  - intros _. destruct IH as [k IH]; [done |]. exists k.
    rewrite (split_unfold c a u), (split_unfold c a (String b r)), IH.
    destruct (Ascii.eqb a c); [done |].
    destruct (split_cons c (String b r)) as (h & t & ->). done.
Qed.

Lemma startswith_take (p : ascii) (s : string) (j : nat) :
  PyStr.startswith (String p "") (PyStr.take (S j) s)
  = PyStr.startswith (String p "") s.
Proof. destruct s as [|a s]; [done |]. cbn. by destruct (Ascii.eqb p a). Qed.

Lemma startswith_rstrip (p c : ascii) (s : string) :
  PyStr.rstrip c s ≠ "" →
  PyStr.startswith (String p "") (PyStr.rstrip c s)
  = PyStr.startswith (String p "") s.
Proof.
  destruct s as [|a s]; [done |]. cbn [PyStr.rstrip].
  destruct (PyStr.rstrip c s).
  - destruct (Ascii.eqb a c); [done |]. intros _. cbn.
    by destruct (Ascii.eqb p a).
  - intros _. cbn. by destruct (Ascii.eqb p a).
Qed.

Lemma walk_inr_app (m : gmap (list string) node) (cur : list string)
    (l1 l2 : list string) (p : list string) :
  Sys.walk m cur (l1 ++ l2) = inr p →
  ∃ q, Sys.walk m cur l1 = inr q ∧ Sys.walk m q l2 = inr p.
Proof.
  rewrite walk_app. destruct (Sys.walk m cur l1) as [e|q]; [done | eauto].
Qed.

Lemma walk_empties_inv (m : gmap (list string) node) (q p : list string)
    (k : nat) :
  Sys.walk m q (repeat "" k) = inr p →
  p = q ∧ (k ≠ 0 → Sys.lookup_node m q = Some Dir).
Proof.
  revert q. induction k as [|k IH]; intros q.
  - by intros [= ->].
  - cbn [repeat Sys.walk]. destruct (Sys.lookup_node m q) as [[]|] eqn:E;
      try done.
    rewrite walk_step_empty. intros [-> _]%IH. done.
Qed.

(** The head of a path that resolves is a directory. *)
Lemma split_head_resolves (m : gmap (list string) node) (wd : list string)
    (name h t : string) (p : list string) :
  posixpath.split name = (h, t) → h ≠ "" →
  Sys.resolve m wd name = inr p →
  ∃ q, Sys.resolve m wd h = inr q ∧ Sys.lookup_node m q = Some Dir.
Proof.
  unfold posixpath.split, Sys.resolve. intros [= Hh Ht] Hne.
  destruct (decide (name = "")) as [->|Hname]; [done |].
  rewrite (bool_decide_eq_false_2 (name = "")) by done.
  rewrite (bool_decide_eq_false_2 (h = "")) by done.
  destruct (PyStr.rfind_succ posixpath.sep name) as [|j] eqn:Ej.
  { change (PyStr.take 0 name) with "" in Hh. by rewrite andb_false_l in Hh. }
  destruct (split_at_last_sep _ _ _ Ej) as [Hs Htake].
  change posixpath.sep with "/"%char in *.
  assert (posixpath.isabs h = posixpath.isabs name) as ->.
  { subst h. unfold posixpath.isabs.
    destruct (negb _ && negb _) eqn:Ec.
    - apply andb_true_iff in Ec as [_ Ec]. apply negb_true_iff in Ec.
      rewrite startswith_rstrip, startswith_take; [done |].
      intros H%rstrip_empty. congruence.
    - apply startswith_take. }
  set (start := if posixpath.isabs name then [] else wd).
  rewrite Hs. intros (q & Hq & Hlast)%walk_inr_app.
  assert (Sys.lookup_node m q = Some Dir) as Hdir.
  { cbn [Sys.walk] in Hlast. by destruct (Sys.lookup_node m q) as [[]|]. }
  exists q. split; [|done]. subst h. rewrite Htake.
  rewrite all_char_snoc, rstrip_snoc.
  destruct (PyStr.all_char "/" (PyStr.take j name)) eqn:Ea.
  - rewrite andb_false_r.
    assert (PyStr.split "/" (PyStr.take j name +:+ "/")
            = PyStr.split "/" (PyStr.take j name) ++ [""]) as ->.
    { rewrite !split_all_sep; [|done | by rewrite all_char_snoc].
      assert (String.length (PyStr.take j name +:+ "/")
              = S (String.length (PyStr.take j name))) as ->.
      { generalize (PyStr.take j name). intros u.
        induction u as [|a u IH]; [done |]. rewrite app_cons. cbn.
        by rewrite IH. }
      change [""] with (repeat "" 1). rewrite <-repeat_app.
      f_equal. lia. }
    rewrite walk_app, Hq. cbn [Sys.walk]. by rewrite Hdir, walk_step_empty.
  - rewrite andb_true_r.
    assert (PyStr.rstrip "/" (PyStr.take j name) ≠ "") as Hr.
    { intros H%rstrip_empty. congruence. }
    destruct (split_rstrip _ _ Hr) as [k Hk].
    assert (PyStr.take j name +:+ "/" ≠ "") as Hne'.
    { by destruct (PyStr.take j name). }
    rewrite (bool_decide_eq_false_2 _ Hne'). cbn [negb].
    rewrite Hk in Hq. apply walk_inr_app in Hq as (q' & Hq' & He).
    apply walk_empties_inv in He as [-> _]. done.
Qed.

(** ** The directory ensurer *)

Lemma stat_inr (m : gmap (list string) node) (wd : list string)
    (name : string) (n : node) :
  Sys.stat m wd name = inr n ↔
  ∃ p, Sys.resolve m wd name = inr p ∧ Sys.lookup_node m p = Some n.
Proof.
  unfold Sys.stat. destruct (Sys.resolve m wd name) as [e|p].
  - split; [done | by intros (? & ? & ?)].
  - destruct (Sys.lookup_node m p) as [n'|] eqn:E.
    + split; [intros [= <-]; eauto | intros (? & [= <-] & ?); congruence].
    + split; [done | intros (? & [= <-] & ?); congruence].
Qed.

(** [mkdir] on a name that exists fails with [EEXIST], whatever is there. *)
Lemma mkdir_existing (m : gmap (list string) node) (wd : list string)
    (name : string) (n : node) :
  Sys.stat m wd name = inr n → Sys.mkdir m wd name = inl EEXIST.
Proof.
  intros (p & Hr & Hl)%stat_inr. unfold Sys.mkdir, Sys.resolve_create.
  unfold Sys.resolve in Hr. case_bool_decide; [done |].
  destruct (drop_trailing_empty_app (PyStr.split "/" name)) as [k Hk].
  rewrite Hk in Hr. apply walk_inr_app in Hr as (q & -> & He).
  apply walk_empties_inv in He as [-> Hdir].
  destruct k as [|k]; [by rewrite Hl |]. by rewrite Hdir.
Qed.

Lemma exists_impl_true (name : string) (w : World) (n : node) :
  Sys.stat (fs w) (cwd w) name = inr n → exists_impl name w = (Ok true, w).
Proof. intros H. unfold exists_impl. by rewrite H. Qed.

(** [os.makedirs] on a name that exists goes straight to its [mkdir], which
    raises [FileExistsError]. *)
Lemma makedirs_rec_existing (fuel : nat) (name : string) (w : World) (n : node) :
  Sys.stat (fs w) (cwd w) name = inr n →
  makedirs_rec (S fuel) name w = (Raise (OSError EEXIST name), w).
Proof.
  intros Hstat. pose proof Hstat as (p & Hr & Hl)%stat_inr.
  assert (∀ head, (∃ q, Sys.resolve (fs w) (cwd w) head = inr q
                        ∧ Sys.lookup_node (fs w) q = Some Dir) →
                  exists_impl head w = (Ok true, w)) as Hex.
  { intros head (q & Hq & Hd). apply (exists_impl_true _ _ Dir).
    apply stat_inr. eauto. }
  assert (mkdir_impl name w = (Raise (OSError EEXIST name), w)) as Hmk.
  { unfold mkdir_impl, lift_fs. by rewrite (mkdir_existing _ _ _ _ Hstat). }
  cbn [makedirs_rec].
  destruct (posixpath.split name) as [h1 t1] eqn:E1.
  assert (∀ head tail,
            (head ≠ "" → ∃ q, Sys.resolve (fs w) (cwd w) head = inr q
                              ∧ Sys.lookup_node (fs w) q = Some Dir) →
            (do stop <-
               (if negb (bool_decide (head = "")) && negb (bool_decide (tail = ""))
                then do ex <- exists_impl head;
                     if ex then ret false
                     else try_except (makedirs_rec fuel head)
                            pass_FileExistsError ;;
                          ret (bool_decide (tail = "."))
                else ret false);
             if stop then ret tt else mkdir_impl name)%py w
            = (Raise (OSError EEXIST name), w)) as Hgo.
  { intros head tail Hhead. unfold bind at 1.
    destruct (decide (head = "")) as [->|Hne]; [done |].
    rewrite (bool_decide_eq_false_2 (head = "")) by done. cbn [negb andb].
    destruct (negb (bool_decide (tail = ""))); [|done].
    unfold bind. by rewrite (Hex _ (Hhead Hne)). }
  case_bool_decide as Ht1.
  - destruct (posixpath.split h1) as [head tail] eqn:E2. apply Hgo.
    intros Hne. assert (h1 ≠ "") as Hh1 by (by intros ->; vm_compute in E2;
      simplify_eq).
    destruct (split_head_resolves _ _ _ _ _ _ E1 Hh1 Hr) as (q & Hq & _).
    by apply (split_head_resolves _ _ _ _ _ _ E2 Hne Hq).
  - apply Hgo. intros Hne. by apply (split_head_resolves _ _ _ _ _ _ E1 Hne Hr).
Qed.

(** C2, on the code: when anything at all exists at the path, be it a
    directory or a regular file, [maybe_makedirs] returns normally and
    changes nothing but the log: the [FileExistsError] of [os.makedirs] is
    swallowed without a look at what exists. *)
Theorem maybe_makedirs_on_existing (path : string) (w : World) (n : node) :
  Sys.stat (fs w) (cwd w) path = inr n →
  maybe_makedirs path w
  = (Ok tt, log_event (Makedirs (normpath path))
              (log_event (Print ("mkdir -p " +:+ normpath path)) w)).
Proof.
  intros H. rewrite <-stat_normpath in H.
  unfold maybe_makedirs. rewrite print_then.
  unfold try_except, os_makedirs, call, makedirs_impl.
  by rewrite (makedirs_rec_existing _ _ _ n).
Qed.

Lemma maybe_makedirs_on_existing_witness :
  Sys.stat sample_fs ["repo"] "python-package/xgboost/tracker.py"
    = inr (File "# tracker")
  ∧ maybe_makedirs "python-package/xgboost/tracker.py" sample_world
    = (Ok tt,
       mkWorld sample_fs ["repo"]
         [Print "mkdir -p python-package/xgboost/tracker.py";
          Makedirs "python-package/xgboost/tracker.py"]).
Proof.
  split; [reflexivity |].
  exact (maybe_makedirs_on_existing "python-package/xgboost/tracker.py"
           sample_world (File "# tracker") eq_refl).
Defined.

(** The other half of C2 holds: an exception of [os.makedirs] that is not a
    [FileExistsError] leaves [maybe_makedirs] as it is. *)
Lemma maybe_makedirs_propagates (path : string) (w w' : World) (e : exn) :
  os_makedirs (normpath path)
    (log_event (Print ("mkdir -p " +:+ normpath path)) w) = (Raise e, w') →
  (∀ filename, e ≠ OSError EEXIST filename) →
  maybe_makedirs path w = (Raise e, w').
Proof.
  intros H He. unfold maybe_makedirs. rewrite print_then.
  unfold try_except. rewrite H.
  destruct e as [e' f| | | | | | |]; try done.
  destruct (decide (e' = EEXIST)) as [->|Hne]; [by destruct (He f) |].
  by rewrite bool_decide_eq_true_2.
Qed.

(** ** The calls of a run *)





Lemma yields_raise {A} (e : exn) (l : list action) : yields (@raise A e) l.
Proof. by intros w b w'. Qed.







Lemma os_chdir_same_log_inner (path : string) :
  preserves same_log
    (λ w, match Sys.chdir (fs w) (cwd w) path with
          | inl e => (Raise (OSError e path), w)
          | inr p => (Ok tt, set_cwd p w)
          end).
Proof. intros w. by destruct (Sys.chdir _ _ _). Qed.






















Lemma subprocess_check_output_world (env : Env) (argv : list string)
    (w : World) :
  (subprocess_check_output env argv w).2 = log_event (CheckOutput argv) w.
Proof.
  unfold subprocess_check_output, call.
  destruct (program_output env argv _ _) as [rc out]. cbn [cwd fs log_event].
  by destruct (Z.eqb rc 0).
Qed.

Lemma get_current_commit_hash_world (env : Env) (w : World) :
  (get_current_commit_hash env w).2
  = log_event (CheckOutput ["git"; "rev-parse"; "HEAD"]) w.
Proof.
  unfold get_current_commit_hash, bind.
  pose proof (subprocess_check_output_world env ["git"; "rev-parse"; "HEAD"] w).
  by destruct (subprocess_check_output env _ w) as [[out|e] w1].
Qed.

Lemma get_current_git_branch_world (env : Env) (w : World) :
  (get_current_git_branch env w).2 = log_event (CheckOutput git_log_argv) w.
Proof.
  unfold get_current_git_branch, bind.
  pose proof (subprocess_check_output_world env git_log_argv w) as H.
  fold git_log_argv.
  destruct (subprocess_check_output env _ w) as [[out|e] w1]; [|done].
  by destruct (re.search release_pattern out).
Qed.


(** ** End to end *)




(** * Further properties *)

(** ** Path normalisation, continued *)

(** X1: a path and its normalisation name the same node, in every file
    system and from every working directory: [stat], [chdir] and reading a
    file cannot tell them apart. *)
Theorem normpath_names_same_node (m : gmap (list string) node)
    (wd : list string) (name : string) :
  Sys.stat m wd (normpath name) = Sys.stat m wd name
  ∧ Sys.chdir m wd (normpath name) = Sys.chdir m wd name
  ∧ Sys.read_file m wd (normpath name) = Sys.read_file m wd name.
Proof.
  unfold Sys.stat, Sys.chdir, Sys.read_file. by rewrite resolve_normpath.
Qed.

Lemma squeeze_no_double_sep (s : string) :
  PyStr.startswith "/" (squeeze true s) = false
  ∧ ∀ b, PyStr.contains "//" (squeeze b s) = false.
Proof.
  induction s as [|a s [IHs IHc]]; [split; [done | by intros []] |].
  cbn [squeeze]. destruct (Ascii.eqb a "/") eqn:E.
  - split; [done |]. intros [|]; [apply IHc |].
    cbn [PyStr.contains PyStr.startswith]. rewrite Ascii.eqb_refl.
    change (PyStr.startswith "/" (squeeze true s) || PyStr.contains "//" (squeeze true s) = false).
    by rewrite IHs, IHc.
  - split.
    + cbn. by rewrite Ascii.eqb_sym, E.
    + intros b. cbn [PyStr.contains PyStr.startswith].
      rewrite Ascii.eqb_sym, E. apply IHc.
Qed.

Lemma squeeze_fixed (s : string) :
  PyStr.contains "//" s = false →
  squeeze false s = s
  ∧ (PyStr.startswith "/" s = false → squeeze true s = s).
Proof.
  induction s as [|a s IH]; [done |].
  cbn [PyStr.contains PyStr.startswith squeeze].
  destruct (Ascii.eqb_spec "/" a) as [<-|Hne].
  - rewrite Ascii.eqb_refl.
    change (PyStr.startswith "/" s || PyStr.contains "//" s = false
            → String "/" (squeeze true s) = String "/" s
              ∧ (true = false → squeeze true s = String "/" s)).
    intros [Hs Hc]%orb_false_elim. destruct (IH Hc) as [_ IH2].
    split; [|done]. by rewrite IH2.
  - assert (Ascii.eqb a "/" = false) as ->.
    { apply Ascii.eqb_neq. congruence. }
    cbn [orb]. intros Hc. destruct (IH Hc) as [IH1 _]. by rewrite IH1.
Qed.

(** X2: the paths [normpath] leaves as they are are exactly those without a
    doubled separator, and no result of [normpath] has one. *)
Theorem normpath_fixed_points (path : string) :
  PyStr.contains "//" (normpath path) = false
  ∧ (normpath path = path ↔ PyStr.contains "//" path = false).
Proof.
  rewrite normpath_squeeze.
  pose proof (proj2 (squeeze_no_double_sep path) false) as H.
  split; [done |]. split.
  - intros Heq. by rewrite Heq in H.
  - intros Hc. by apply squeeze_fixed.
Qed.

(** ** The git metadata resolvers, continued *)

Lemma run_of_idempotent (accepts : ascii → bool) (s : string) :
  run_of accepts (run_of accepts s) = run_of accepts s.
Proof.
  induction s as [|c s IH]; [done |]. cbn [run_of].
  destruct (accepts c) eqn:E; [|done]. cbn [run_of]. by rewrite E, IH.
Qed.

Lemma run_of_prefix (accepts : ascii → bool) (s : string) :
  ∃ post, s = run_of accepts s +:+ post.
Proof.
  induction s as [|c s [post IH]]; [by exists "" |]. cbn [run_of].
  destruct (accepts c).
  - exists post. by rewrite app_cons, <-IH.
  - by exists (String c s).
Qed.

Lemma startswith_prefix (p s : string) :
  PyStr.startswith p s = true →
  s = p +:+ PyStr.drop (String.length p) s.
Proof.
  revert s. induction p as [|a p IH]; intros s; [done |].
  destruct s as [|b s]; [done |]. cbn [PyStr.startswith].
  destruct (Ascii.eqb_spec a b) as [<-|]; [|done]. intros H.
  rewrite app_cons. cbn [String.length PyStr.drop]. by rewrite <-IH.
Qed.

(** Where a release name starts, the pattern matches a release name that
    the text continues. *)
Lemma release_at_name (s : string) :
  release_at s = true →
  is_release_name ("release_" +:+ run_of digit_or_dot (PyStr.drop 8 s))
  ∧ ∃ post, s = ("release_" +:+ run_of digit_or_dot (PyStr.drop 8 s)) +:+ post.
Proof.
  unfold release_at. intros [Hs Hd]%andb_true_iff.
  apply startswith_prefix in Hs. change (String.length "release_") with 8 in Hs.
  split.
  - eexists. split; [done |]. split; [|apply run_of_idempotent].
    destruct (PyStr.drop 8 s) as [|d r]; [done |]. cbn [run_of].
    by rewrite Hd.
  - destruct (run_of_prefix digit_or_dot (PyStr.drop 8 s)) as [post Hp].
    exists post. rewrite append_assoc, <-Hp. exact Hs.
Qed.

Lemma search_sound (text m : string) :
  re.search release_pattern text = Some m →
  is_release_name m ∧ substring_of m text.
Proof.
  induction text as [|c text IH]; rewrite search_unfold, match_here_release.
  - done.
  - destruct (release_at (String c text)) eqn:E.
    + intros [= <-]. destruct (release_at_name _ E) as [Hn [post Hp]].
      split; [done |]. exists "", post. by rewrite app_nil_l.
    + intros [Hn (pre & post & ->)]%IH. split; [done |].
      by exists (String c pre), post.
Qed.

(** X3: the branch-name resolver returns a release name exactly when the
    decoration text holds one, and then a name that occurs in the text;
    otherwise it raises its [ValueError].  It never returns anything else. *)
Theorem get_current_git_branch_sound (env : Env) (w : World) (text : string) :
  program_output env git_log_argv (cwd w) (fs w) = (0%Z, text) →
  match (get_current_git_branch env w).1 with
  | Ok m => is_release_name m ∧ substring_of m text
  | Raise e =>
      e = ValueError "Expected branch name of form release_xxx"
      ∧ ∀ name, is_release_name name → ¬ substring_of name text
  end.
Proof.
  intros Hout. rewrite (get_current_git_branch_search env w text Hout).
  destruct (re.search release_pattern text) as [m|] eqn:E.
  - by apply search_sound.
  - split; [done |]. intros name Hn Hs.
    assert (has_release text = true) as Hh
      by (apply has_release_substring; eauto).
    apply search_some in Hh as [m Hm]. congruence.
Qed.

Lemma get_current_git_branch_sound_witness :
  is_release_name "release_1.7.0"
  ∧ substring_of "release_1.7.0"
      (" (tag: v1.7.0, release_1.7.0)" +:+ String (ascii_of_nat 10) "").
Proof.
  exact (get_current_git_branch_sound sample_env sample_world _ eq_refl).
Defined.

Lemma split_first (c : ascii) (h rest : string) :
  PyStr.contains_char c h = false →
  hd "" (PyStr.split c (h +:+ String c rest)) = h.
Proof.
  induction h as [|a h IH].
  - intros _. rewrite app_nil_l. cbn [PyStr.split]. by rewrite Ascii.eqb_refl.
  - cbn [PyStr.contains_char]. intros [Ha Hh]%orb_false_elim.
    rewrite app_cons, split_unfold, Ha.
    specialize (IH Hh).
    destruct (split_cons c (h +:+ String c rest)) as (x & t & Hs).
    rewrite Hs in IH |- *. cbn in IH |- *. by rewrite IH.
Qed.

Lemma split_whole (c : ascii) (s : string) :
  PyStr.contains_char c s = false → PyStr.split c s = [s].
Proof.
  induction s as [|a s IH]; [done |]. cbn [PyStr.contains_char].
  intros [Ha Hs]%orb_false_elim. by rewrite split_unfold, Ha, IH.
Qed.

(** X4: the commit resolver returns the first line of what git prints (the
    whole output when it has no newline, so the empty string for an empty
    output, without complaint), and raises [CalledProcessError] with git's
    return code when that is not zero; it touches neither the file system nor
    the working directory. *)
Theorem get_current_commit_hash_first_line (env : Env) (w : World)
    (rc : Z) (out : string) :
  program_output env git_rev_parse_argv (cwd w) (fs w) = (rc, out) →
  (rc ≠ 0%Z →
   (get_current_commit_hash env w).1
   = Raise (CalledProcessError rc "git rev-parse HEAD"))
  ∧ (rc = 0%Z →
     (∀ line rest,
        out = line +:+ String newline rest →
        PyStr.contains_char newline line = false →
        (get_current_commit_hash env w).1 = Ok line)
     ∧ (PyStr.contains_char newline out = false →
        (get_current_commit_hash env w).1 = Ok out))
  ∧ fs (get_current_commit_hash env w).2 = fs w
  ∧ cwd (get_current_commit_hash env w).2 = cwd w.
Proof.
  intros Hout. rewrite get_current_commit_hash_world. split; [|split; [|done]].
  - intros Hrc. unfold get_current_commit_hash, bind, subprocess_check_output,
      call. cbn [cwd fs log_event]. fold git_rev_parse_argv. rewrite Hout.
    apply Z.eqb_neq in Hrc. by rewrite Hrc.
  - intros ->.
    assert ((get_current_commit_hash env w).1
            = Ok (hd "" (PyStr.split newline out))) as ->.
    { unfold get_current_commit_hash, bind, subprocess_check_output, call.
      cbn [cwd fs log_event]. fold git_rev_parse_argv. by rewrite Hout. }
    split.
    + intros line rest -> Hl. by rewrite split_first.
    + intros Hl. by rewrite split_whole.
Qed.

Lemma get_current_commit_hash_first_line_witness :
  (get_current_commit_hash sample_env sample_world).1 = Ok "abc123"
  ∧ (get_current_commit_hash (env_with_git "" "") sample_world).1 = Ok "".
Proof.
  split.
  - apply (proj1 (proj1 (proj2 (get_current_commit_hash_first_line sample_env
                                  sample_world 0 _ eq_refl)) eq_refl)
             "abc123" "");
      reflexivity.
  - apply (proj2 (proj1 (proj2 (get_current_commit_hash_first_line
                                  (env_with_git "" "") sample_world 0 _
                                  eq_refl)) eq_refl)).
    reflexivity.
Defined.

(** ** The artifact fetcher and the command runner, continued *)

Lemma write_file_read_back (m m' : gmap (list string) node) (wd : list string)
    (name data : string) :
  Sys.write_file m wd name data = inr m' →
  Sys.read_file m' wd name = inr data
  ∧ ∃ p, Sys.resolve m wd name = inr p ∧ m' = <[p := File data]> m
         ∧ Sys.lookup_node m p ≠ Some Dir.
Proof.
  unfold Sys.write_file, Sys.read_file.
  destruct (Sys.resolve m wd name) as [e|p] eqn:Er; [done |].
  destruct (Sys.lookup_node m p) as [[]|] eqn:El; try done;
    intros [= <-];
    (assert (p ≠ []) as Hp by (by intros ->));
    (assert (dirs_le m (<[p := File data]> m)) as Hle
       by (apply dirs_le_insert_file; by rewrite El));
    rewrite (resolve_mono _ _ _ _ _ Hle Er), lookup_node_insert by done;
    rewrite decide_True by done; (split; [done |]); exists p;
    by rewrite El.
Qed.



(** X6: [run] prints the command and makes one call, no second attempt; it
    raises [CalledProcessError] with the command and its return code exactly
    when the code is not zero, and either way the file system is the one the
    command left (a failed command is not undone) and the working directory
    is the one [run] was called in. *)
Theorem run_fails_fast (env : Env) (command : string) (w : World)
    (rc : Z) (m : gmap (list string) node) :
  shell env command (cwd w) (fs w) = (rc, m) →
  (run env command w).1
  = (if bool_decide (rc = 0%Z) then Ok tt
     else Raise (CalledProcessError rc command))
  ∧ log (run env command w).2 = log w ++ [Print command; CheckCall command]
  ∧ fs (run env command w).2 = m
  ∧ cwd (run env command w).2 = cwd w.
Proof.
  intros Hs. split; [|split; [apply run_log |]].
  - unfold run. rewrite print_then. unfold subprocess_check_call, call.
    cbn [cwd fs log_event]. rewrite Hs.
    destruct (Z.eqb_spec rc 0) as [->|Hne]; [done |].
    by rewrite bool_decide_eq_false_2.
  - unfold run. rewrite print_then. unfold subprocess_check_call, call.
    cbn [cwd fs log_event]. rewrite Hs. by destruct (Z.eqb rc 0).
Qed.

Lemma run_fails_fast_witness :
  (run sample_env "false" sample_world).1
  = Raise (CalledProcessError 127 "false")
  ∧ log (run sample_env "false" sample_world).2
    = [Print "false"; CheckCall "false"].
Proof.
  pose proof (run_fails_fast sample_env "false" sample_world 127 sample_fs
                eq_refl) as (H1 & H2 & _).
  split; [exact H1 | exact H2].
Defined.

(** ** The file copier, continued *)

(** X7: [cp] can change one node only, the destination file; it leaves the
    working directory alone; and copying a file onto itself (the destination
    resolving to the source) raises [SameFileError] with the file untouched. *)
Theorem cp_changes_destination_only (source target : string) (w : World) :
  (∀ q, Sys.resolve (fs w) (cwd w) (copy_destination w source target) ≠ inr q →
        Sys.lookup_node (fs (cp source target w).2) q
        = Sys.lookup_node (fs w) q)
  ∧ cwd (cp source target w).2 = cwd w
  ∧ (∀ p n, Sys.resolve (fs w) (cwd w) source = inr p →
            Sys.lookup_node (fs w) p = Some n →
            Sys.resolve (fs w) (cwd w) (copy_destination w source target)
              = inr p →
            (cp source target w).1
            = Raise (SameFileError (normpath source)
                       (copy_destination w source target))
            ∧ fs (cp source target w).2 = fs w).
Proof.
  rewrite cp_copyfile, copyfile_impl_cases. cbn [fs cwd log_event].
  rewrite resolve_normpath.
  destruct (Sys.resolve (fs w) (cwd w) source) as [e|p] eqn:Es.
  { split; [done |]. split; [done |]. intros ? ? [=]. }
  destruct (Sys.lookup_node (fs w) p) as [n|] eqn:En.
  2:{ split; [done |]. split; [done |]. intros ? ? [= <-]. congruence. }
  case_bool_decide as Hsame.
  { split; [done |]. split; [done |]. by intros ? ? [= <-] _ _. }
  destruct n as [data|].
  2:{ split; [done |]. split; [done |]. intros ? ? [= <-]. congruence. }
  destruct (Sys.write_file (fs w) (cwd w) _ data) as [e|m'] eqn:Ew.
  { split; [done |]. split; [done |]. intros ? ? [= <-]. congruence. }
  destruct (write_file_read_back _ _ _ _ _ Ew) as [_ (q' & Hq' & -> & Hd)].
  assert (q' ≠ []) as Hne by (intros ->; by destruct Hd).
  cbn [fst snd fs cwd set_fs]. split; [|split; [done |]].
  - intros q Hq. rewrite lookup_node_insert by done.
    rewrite decide_False; [done |]. intros <-. by destruct Hq.
  - intros ? ? [= <-]. congruence.
Qed.

Lemma cp_changes_destination_only_witness :
  (cp "python-package/xgboost/tracker.py" "python-package/xgboost"
     sample_world).1
  = Raise (SameFileError "python-package/xgboost/tracker.py"
             "python-package/xgboost/tracker.py")
  ∧ fs (cp "python-package/xgboost/tracker.py" "python-package/xgboost"
          sample_world).2 = fs sample_world.
Proof.
  apply (proj2 (proj2 (cp_changes_destination_only
                         "python-package/xgboost/tracker.py"
                         "python-package/xgboost" sample_world))
           ["repo"; "python-package"; "xgboost"; "tracker.py"]
           (File "# tracker"));
    reflexivity.
Defined.

(** ** The directory ensurer, continued *)

(** [os.makedirs] on a name whose every directory on the way exists is its
    [mkdir]. *)
Lemma makedirs_rec_resolved (fuel : nat) (name : string) (w : World)
    (p : list string) :
  Sys.resolve (fs w) (cwd w) name = inr p →
  makedirs_rec (S fuel) name w = mkdir_impl name w.
Proof.
  intros Hr.
  assert (∀ head, (∃ q, Sys.resolve (fs w) (cwd w) head = inr q
                        ∧ Sys.lookup_node (fs w) q = Some Dir) →
                  exists_impl head w = (Ok true, w)) as Hex.
  { intros head (q & Hq & Hd). apply (exists_impl_true _ _ Dir).
    apply stat_inr. eauto. }
  cbn [makedirs_rec].
  destruct (posixpath.split name) as [h1 t1] eqn:E1.
  assert (∀ head tail,
            (head ≠ "" → ∃ q, Sys.resolve (fs w) (cwd w) head = inr q
                              ∧ Sys.lookup_node (fs w) q = Some Dir) →
            (do stop <-
               (if negb (bool_decide (head = "")) && negb (bool_decide (tail = ""))
                then do ex <- exists_impl head;
                     if ex then ret false
                     else try_except (makedirs_rec fuel head)
                            pass_FileExistsError ;;
                          ret (bool_decide (tail = "."))
                else ret false);
             if stop then ret tt else mkdir_impl name)%py w
            = mkdir_impl name w) as Hgo.
  { intros head tail Hhead. unfold bind at 1.
    destruct (decide (head = "")) as [->|Hne]; [done |].
    rewrite (bool_decide_eq_false_2 (head = "")) by done. cbn [negb andb].
    destruct (negb (bool_decide (tail = ""))); [|done].
    unfold bind. by rewrite (Hex _ (Hhead Hne)). }
  case_bool_decide as Ht1.
  - destruct (posixpath.split h1) as [head tail] eqn:E2. apply Hgo.
    intros Hne. assert (h1 ≠ "") as Hh1 by (by intros ->; vm_compute in E2;
      simplify_eq).
    destruct (split_head_resolves _ _ _ _ _ _ E1 Hh1 Hr) as (q & Hq & _).
    by apply (split_head_resolves _ _ _ _ _ _ E2 Hne Hq).
  - apply Hgo. intros Hne. by apply (split_head_resolves _ _ _ _ _ _ E1 Hne Hr).
Qed.

(** A name that resolves to a place where nothing is ends with a component,
    not with a separator: [mkdir] looks at the same place. *)
Lemma resolve_create_missing (m : gmap (list string) node) (wd : list string)
    (name : string) (p : list string) :
  Sys.resolve m wd name = inr p → Sys.lookup_node m p = None →
  Sys.resolve_create m wd name = inr p.
Proof.
  unfold Sys.resolve, Sys.resolve_create. case_bool_decide; [done |].
  destruct (drop_trailing_empty_app (PyStr.split "/" name)) as [k Hk].
  intros Hw Hl. rewrite Hk in Hw. apply walk_inr_app in Hw as (q & Hq & He).
  apply walk_empties_inv in He as [-> Hd]. done.
Qed.

(** X8: where every directory on the way to the path exists and nothing is
    at the path itself, [maybe_makedirs] creates that one directory and
    nothing else; the path is a directory afterwards, and a second call
    returns as well and changes nothing. *)
Theorem maybe_makedirs_creates (path : string) (w : World) (p : list string) :
  Sys.resolve (fs w) (cwd w) path = inr p →
  Sys.lookup_node (fs w) p = None →
  (maybe_makedirs path w).1 = Ok tt
  ∧ fs (maybe_makedirs path w).2 = <[p := Dir]> (fs w)
  ∧ Sys.stat (fs (maybe_makedirs path w).2) (cwd (maybe_makedirs path w).2) path
    = inr Dir
  ∧ (maybe_makedirs path (maybe_makedirs path w).2).1 = Ok tt
  ∧ fs (maybe_makedirs path (maybe_makedirs path w).2).2
    = fs (maybe_makedirs path w).2.
Proof.
  intros Hr Hl. pose proof Hr as Hr'. rewrite <-resolve_normpath in Hr'.
  assert (p ≠ []) as Hp by (by intros ->).
  assert (maybe_makedirs path w
          = (Ok tt, set_fs (<[p := Dir]> (fs w))
                      (log_event (Makedirs (normpath path))
                         (log_event (Print ("mkdir -p " +:+ normpath path)) w))))
    as Hfirst.
  { unfold maybe_makedirs. rewrite print_then.
    unfold try_except, os_makedirs, call, makedirs_impl.
    rewrite (makedirs_rec_resolved _ _ _ p) by done.
    unfold mkdir_impl, lift_fs, Sys.mkdir. cbn [fs cwd log_event].
    by rewrite (resolve_create_missing _ _ _ _ Hr' Hl), Hl. }
  rewrite Hfirst. cbn [fst snd fs cwd set_fs log_event].
  assert (Sys.stat (<[p := Dir]> (fs w)) (cwd w) path = inr Dir) as Hstat.
  { apply stat_inr. exists p. split.
    - eapply resolve_mono; [by apply dirs_le_insert_dir | done].
    - rewrite lookup_node_insert by done. by rewrite decide_True. }
  split; [done |]. split; [done |]. split; [done |].
  unfold maybe_makedirs. rewrite print_then.
  unfold try_except, os_makedirs, call, makedirs_impl.
  rewrite (makedirs_rec_existing _ _ _ Dir).
  - done.
  - cbn [fs cwd set_fs log_event]. by rewrite stat_normpath.
Qed.

Lemma maybe_makedirs_creates_witness :
  (maybe_makedirs "jvm-packages/xgboost4j/src/test" sample_world).1 = Ok tt
  ∧ Sys.stat (fs (maybe_makedirs "jvm-packages/xgboost4j/src/test"
                    sample_world).2) ["repo"] "jvm-packages/xgboost4j/src/test"
    = inr Dir.
Proof.
  pose proof (maybe_makedirs_creates "jvm-packages/xgboost4j/src/test"
                sample_world ["repo"; "jvm-packages"; "xgboost4j"; "src"; "test"]
                eq_refl eq_refl) as (H1 & _ & H3 & _).
  split; [exact H1 | exact H3].
Defined.

(** ** The calls of every run *)



Lemma emits_raise {A} (e : exn) (l : list action) : emits (@raise A e) l.
Proof.
  intros w. exists []. rewrite app_nil_r. split; [done | apply prefix_nil].
Qed.




























Lemma parse_args_world (argv : list string) (w : World) :
  (parse_args argv w).2 = w.
Proof.
  unfold parse_args. destruct argv as [|opt [|version [|]]]; try done.
  by case_bool_decide.
Qed.


(** ** The working directory over a whole run *)

Lemma bind_cases {A B} (m : M A) (k : A → M B) (w : World) :
  bind m k w = match m w with
               | (Ok a, w1) => k a w1
               | (Raise e, w1) => (Raise e, w1)
               end.
Proof. done. Qed.

(** [cd] ends where it was called, if that place can be entered then. *)
Lemma cd_back {A} (path : string) (body : string → M A) (w : World) :
  Sys.chdir (fs (cd path body w).2) [] (Sys.path_string (cwd w)) = inr (cwd w) →
  cwd (cd path body w).2 = cwd w.
Proof.
  unfold cd. rewrite bind_cases.
  destruct (os_getcwd w) as [[c|e] wa] eqn:Eg.
  2:{ intros _. unfold os_getcwd, call, lift_read in Eg. cbn in Eg.
      destruct (Sys.getcwd _ _); by simplify_eq. }
  destruct (os_getcwd_inv _ _ _ Eg) as [-> ->].
  rewrite bind_cases, os_chdir_unfold.
  destruct (Sys.chdir (fs (log_event Getcwd w)) _ _) as [e|p]; [done |].
  rewrite print_then. unfold try_finally.
  destruct (body _ _) as [r w2]. rewrite os_chdir_unfold.
  rewrite (chdir_absolute (fs w2) (cwd w2) []) by done.
  destruct (Sys.chdir (fs w2) [] _) as [e|q] eqn:Eb; cbn; rewrite Eb.
  - intros [=].
  - by intros [= ->].
Qed.

Lemma next_steps_world (w : World) :
  (next_steps w).1 = Ok tt
  ∧ fs (next_steps w).2 = fs w ∧ cwd (next_steps w).2 = cwd w.
Proof. done. Qed.

(** X10: whichever way [main] ends (arguments refused, git failing, a step
    of the preparation raising, or the closing notes printed), the working
    directory is the one it was started in, provided that directory can
    still be entered by its path name at the end: the two nested [cd] blocks
    and every helper leave no trace in it. *)
Theorem main_restores_cwd (env : Env) (argv : list string) (w : World) :
  can_return_to (fs (main env argv w).2) (cwd w) = true →
  cwd (main env argv w).2 = cwd w.
Proof.
  unfold can_return_to. intros H%bool_decide_eq_true. revert H.
  unfold main. pose proof (parse_args_world argv w) as Hp.
  rewrite bind_cases.
  destruct (parse_args argv w) as [[version|e] w0]; cbn [fst snd] in Hp;
    subst w0.
  2: done.
  rewrite bind_cases. pose proof (get_current_commit_hash_world env w) as H1.
  destruct (get_current_commit_hash env w) as [[c|e] w1]; cbn [fst snd] in H1;
    subst w1.
  2: done.
  rewrite bind_cases.
  pose proof (get_current_git_branch_world env
                (log_event (CheckOutput ["git"; "rev-parse"; "HEAD"]) w)) as H2.
  destruct (get_current_git_branch env _) as [[b|e] w2]; cbn [fst snd] in H2;
    subst w2.
  2: done.
  rewrite print_then, bind_cases.
  match goal with
  | |- context [cd ?p ?body ?w3] => pose proof (cd_back p body w3) as Hcd
  end.
  cbn [cwd log_event] in Hcd.
  destruct (cd _ _ _) as [[[]|e] w4]; cbn [fst snd] in *; [|done].
  destruct (next_steps_world w4) as (_ & Hf & Hc). rewrite Hf, Hc. done.
Qed.

Lemma main_restores_cwd_witness :
  cwd (main sample_env sample_argv sample_world).2 = ["repo"].
Proof.
  apply (main_restores_cwd sample_env sample_argv sample_world).
  vm_compute. reflexivity.
Defined.

(** ** The recursion of [os.makedirs] *)

Lemma take_drop_length (i : nat) (s : string) :
  String.length (PyStr.take i s) + String.length (PyStr.drop i s)
  = String.length s.
Proof.
  revert i. induction s as [|a s IH]; intros [|i]; cbn; try done.
  by rewrite IH.
Qed.

Lemma rstrip_length (c : ascii) (s : string) :
  String.length (PyStr.rstrip c s) ≤ String.length s.
Proof.
  induction s as [|a s IH]; cbn [PyStr.rstrip]; [done |].
  destruct (PyStr.rstrip c s).
  - destruct (Ascii.eqb a c); cbn; lia.
  - cbn in *. lia.
Qed.

Lemma posixpath_split_length (p head tail : string) :
  posixpath.split p = (head, tail) →
  String.length head + String.length tail ≤ String.length p.
Proof.
  unfold posixpath.split. intros [= <- <-].
  pose proof (take_drop_length (PyStr.rfind_succ posixpath.sep p) p).
  pose proof (rstrip_length posixpath.sep
                (PyStr.take (PyStr.rfind_succ posixpath.sep p) p)).
  destruct (_ && _); lia.
Qed.

(** The head [os.makedirs] calls itself on is shorter than the name. *)
Lemma makedirs_head_shorter (name h t head tail : string) :
  posixpath.split name = (h, t) →
  (if bool_decide (t = "") then posixpath.split h else (h, t)) = (head, tail) →
  tail ≠ "" → String.length head < String.length name.
Proof.
  intros H1%posixpath_split_length H2 Ht.
  assert (0 < String.length tail) by (destruct tail; [done | cbn; lia]).
  case_bool_decide.
  - apply posixpath_split_length in H2. lia.
  - injection H2 as <- <-. lia.
Qed.







(** ** [mkdir -p]: the chain of directories *)

Lemma plain_name_inv (c : string) :
  plain_name c = true →
  c ≠ "" ∧ PyStr.contains_char "/" c = false ∧ c ≠ "." ∧ c ≠ "..".
Proof.
  unfold plain_name.
  rewrite !andb_true_iff, !negb_true_iff, !bool_decide_eq_false. tauto.
Qed.

Lemma rfind_succ_no_sep (c : ascii) (s : string) :
  PyStr.contains_char c s = false → PyStr.rfind_succ c s = 0.
Proof.
  induction s as [|a s IH]; [done |].
  cbn [PyStr.contains_char PyStr.rfind_succ].
  intros [Ha Hs]%orb_false_iff. by rewrite (IH Hs), Ha.
Qed.

Lemma split_app_sep (c : ascii) (x v : string) :
  PyStr.contains_char c x = false →
  PyStr.split c (x +:+ String c v) = x :: PyStr.split c v.
Proof.
  induction x as [|a x IH].
  - intros _. by rewrite app_nil_l, split_unfold, Ascii.eqb_refl.
  - cbn [PyStr.contains_char]. intros [Ha Hx]%orb_false_iff.
    by rewrite app_cons, split_unfold, Ha, (IH Hx).
Qed.

Lemma join_cons2 (sep x y : string) (l : list string) :
  PyStr.join sep (x :: y :: l) = x +:+ sep +:+ PyStr.join sep (y :: l).
Proof. done. Qed.

Lemma join_snoc (sep : string) (ns : list string) (c : string) :
  ns ≠ [] → PyStr.join sep (ns ++ [c]) = PyStr.join sep ns +:+ sep +:+ c.
Proof.
  induction ns as [|x [|y l] IH]; [done | done |]. intros _.
  change ((x :: y :: l) ++ [c]) with (x :: y :: (l ++ [c])).
  rewrite !join_cons2. change (y :: l ++ [c]) with ((y :: l) ++ [c]).
  rewrite IH by done. by rewrite !append_assoc.
Qed.

Lemma sep_app (v : string) : "/" +:+ v = String "/" v.
Proof. done. Qed.

Lemma split_join_plain (ns : list string) :
  forallb plain_name ns = true → ns ≠ [] →
  PyStr.split "/" (PyStr.join "/" ns) = ns.
Proof.
  induction ns as [|x [|y l] IH]; [done | |]; cbn [forallb];
    intros [Hx Hl]%andb_true_iff _;
    apply plain_name_inv in Hx as (_ & Hx & _).
  - cbn [PyStr.join]. by apply split_no_sep, rfind_succ_no_sep.
  - rewrite join_cons2, sep_app, split_app_sep by done.
    by rewrite IH.
Qed.

Lemma rstrip_no_sep (c : ascii) (x : string) :
  PyStr.contains_char c x = false → PyStr.rstrip c x = x.
Proof.
  induction x as [|a x IH]; [done |].
  cbn [PyStr.contains_char PyStr.rstrip].
  intros [Ha Hx]%orb_false_iff. rewrite (IH Hx).
  destruct x; [by rewrite Ha | done].
Qed.

Lemma rstrip_app (c : ascii) (x v : string) :
  PyStr.rstrip c v ≠ "" → PyStr.rstrip c (x +:+ v) = x +:+ PyStr.rstrip c v.
Proof.
  intros Hv. induction x as [|a x IH]; [by rewrite !app_nil_l |].
  rewrite !app_cons. cbn [PyStr.rstrip]. rewrite IH.
  destruct (x +:+ PyStr.rstrip c v) eqn:E; [|done].
  destruct x; [by rewrite app_nil_l in E | by rewrite app_cons in E].
Qed.

Lemma rstrip_join_plain (ns : list string) :
  forallb plain_name ns = true → ns ≠ [] →
  PyStr.rstrip "/" (PyStr.join "/" ns) = PyStr.join "/" ns
  ∧ PyStr.join "/" ns ≠ "".
Proof.
  induction ns as [|x [|y l] IH]; [done | |]; cbn [forallb];
    intros [Hx Hl]%andb_true_iff _;
    apply plain_name_inv in Hx as (Hne & Hx & _).
  - cbn [PyStr.join]. split; [by apply rstrip_no_sep | done].
  - destruct (IH Hl ltac:(done)) as [IH1 IH2]. rewrite join_cons2.
    assert (PyStr.rstrip "/" ("/" +:+ PyStr.join "/" (y :: l))
            = "/" +:+ PyStr.join "/" (y :: l)) as Hs.
    { rewrite rstrip_app by congruence. by rewrite IH1. }
    split.
    + rewrite rstrip_app by (by rewrite Hs). by rewrite Hs.
    + destruct x; [done | by rewrite app_cons].
Qed.

Lemma join_plain_head (ns : list string) :
  forallb plain_name ns = true → ns ≠ [] →
  ∃ a s, PyStr.join "/" ns = String a s ∧ Ascii.eqb a "/" = false.
Proof.
  destruct ns as [|x l]; [done |]. cbn [forallb].
  intros [Hx _]%andb_true_iff _.
  apply plain_name_inv in Hx as (Hne & Hc & _).
  destruct x as [|a x]; [done |]. cbn [PyStr.contains_char] in Hc.
  apply orb_false_iff in Hc as [Ha _].
  destruct l as [|y l]; [by exists a, x |].
  rewrite join_cons2, app_cons. eauto.
Qed.

Lemma join_plain_relative (ns : list string) :
  forallb plain_name ns = true → ns ≠ [] →
  PyStr.join "/" ns ≠ "" ∧ posixpath.isabs (PyStr.join "/" ns) = false.
Proof.
  intros H1 H2. destruct (join_plain_head ns H1 H2) as (a & s & -> & Ha).
  split; [done |]. unfold posixpath.isabs. cbn [PyStr.startswith].
  by rewrite Ascii.eqb_sym, Ha.
Qed.

Lemma rfind_succ_app_sep (c : ascii) (u t : string) :
  PyStr.rfind_succ c t = 0 →
  PyStr.rfind_succ c (u +:+ String c t) = S (String.length u).
Proof.
  intros Ht. induction u as [|a u IH].
  - rewrite app_nil_l. cbn [PyStr.rfind_succ String.length].
    by rewrite Ht, Ascii.eqb_refl.
  - rewrite app_cons. cbn [PyStr.rfind_succ String.length]. by rewrite IH.
Qed.

Lemma take_drop_app_sep (c : ascii) (u t : string) :
  PyStr.take (S (String.length u)) (u +:+ String c t) = u +:+ String c ""
  ∧ PyStr.drop (S (String.length u)) (u +:+ String c t) = t.
Proof.
  induction u as [|a u [IH1 IH2]].
  - rewrite !app_nil_l. cbn. by destruct t.
  - rewrite !app_cons. cbn [String.length].
    change (PyStr.take (S ?n) (String a ?s)) with (String a (PyStr.take n s)).
    change (PyStr.drop (S ?n) (String a ?s)) with (PyStr.drop n s).
    by rewrite IH1, IH2.
Qed.

(** The head and tail of a path that ends with a name. *)
Lemma posixpath_split_snoc (u t : string) :
  u ≠ "" → PyStr.rstrip "/" u = u → PyStr.rfind_succ "/" t = 0 →
  posixpath.split (u +:+ String "/" t) = (u, t).
Proof.
  intros Hu Hr Ht. unfold posixpath.split. change posixpath.sep with "/"%char.
  rewrite (rfind_succ_app_sep _ _ _ Ht).
  destruct (take_drop_app_sep "/" u t) as [-> ->].
  rewrite all_char_snoc, rstrip_snoc, Hr.
  assert (PyStr.all_char "/" u = false) as ->.
  { destruct (PyStr.all_char "/" u) eqn:E; [|done].
    apply rstrip_empty in E. congruence. }
  rewrite bool_decide_eq_false_2; [done |].
  destruct u; [done | by rewrite app_cons].
Qed.

Lemma posixpath_split_join (ns : list string) (c : string) :
  forallb plain_name ns = true → plain_name c = true →
  posixpath.split (PyStr.join "/" (ns ++ [c])) = (PyStr.join "/" ns, c).
Proof.
  intros Hns (Hc & Hs%rfind_succ_no_sep & _)%plain_name_inv.
  destruct (decide (ns = [])) as [->|Hne].
  - cbn [app PyStr.join]. unfold posixpath.split.
    change posixpath.sep with "/"%char. rewrite Hs. by destruct c.
  - rewrite join_snoc, sep_app by done.
    destruct (rstrip_join_plain ns Hns Hne) as [Hr Hu].
    by apply posixpath_split_snoc.
Qed.

Lemma drop_trailing_empty_snoc (l : list string) (c : string) :
  c ≠ "" → Sys.drop_trailing_empty (l ++ [c]) = l ++ [c].
Proof.
  intros Hc. induction l as [|a l IH]; cbn.
  - by rewrite bool_decide_eq_false_2.
  - rewrite IH. by destruct l.
Qed.

Lemma walk_step_plain (c : string) (cur : list string) :
  plain_name c = true → Sys.walk_step c cur = cur ++ [c].
Proof.
  intros (H1 & _ & H2 & H3)%plain_name_inv. unfold Sys.walk_step.
  by rewrite !bool_decide_eq_false_2.
Qed.

(** Plain names lead down, one directory after the other. *)
Lemma walk_plain (m : gmap (list string) node) (cur ns : list string) :
  forallb plain_name ns = true →
  (∀ i, i < length ns → Sys.lookup_node m (cur ++ take i ns) = Some Dir) →
  Sys.walk m cur ns = inr (cur ++ ns).
Proof.
  revert cur. induction ns as [|c ns IH]; intros cur; cbn [forallb].
  - intros _ _. by rewrite app_nil_r.
  - intros [Hc Hns]%andb_true_iff H. cbn [Sys.walk].
    pose proof (H 0 ltac:(cbn; lia)) as H0. cbn in H0.
    rewrite app_nil_r in H0. rewrite H0, walk_step_plain by done.
    rewrite IH; [by rewrite <-app_assoc | done |].
    intros i Hi. specialize (H (S i) ltac:(cbn; lia)).
    by rewrite <-app_assoc.
Qed.

Lemma walk_plain_inv (m : gmap (list string) node) (cur ns p : list string) :
  forallb plain_name ns = true → Sys.walk m cur ns = inr p →
  p = cur ++ ns
  ∧ ∀ i, i < length ns → Sys.lookup_node m (cur ++ take i ns) = Some Dir.
Proof.
  revert cur. induction ns as [|c ns IH]; intros cur; cbn [forallb Sys.walk].
  - intros _ [= <-]. split; [by rewrite app_nil_r |].
    intros i Hi. cbn in Hi. lia.
  - intros [Hc Hns]%andb_true_iff.
    destruct (Sys.lookup_node m cur) as [[]|] eqn:El; try done.
    rewrite walk_step_plain by done. intros (-> & Hi)%IH; [|done].
    split; [by rewrite <-app_assoc |].
    intros [|i] Hlt; [cbn; by rewrite app_nil_r |].
    cbn [take]. specialize (Hi i ltac:(cbn in Hlt; lia)).
    by rewrite <-app_assoc in Hi.
Qed.

(** What [os.makedirs] leaves of a chain of names below the working
    directory: every directory of the chain, and nothing else changed.  It
    returns, or raises [FileExistsError] when the last one was there. *)
Lemma makedirs_rec_chain (names : list string) :
  ∀ (fuel : nat) (w : World),
    names ≠ [] → forallb plain_name names = true →
    String.length (PyStr.join "/" names) < fuel →
    Sys.lookup_node (fs w) (cwd w) = Some Dir →
    (∀ i data,
       Sys.lookup_node (fs w) (cwd w ++ take i names) ≠ Some (File data)) →
    let out := makedirs_rec fuel (PyStr.join "/" names) w in
    (out.1 = Ok tt ∨ ∃ file, out.1 = Raise (OSError EEXIST file))
    ∧ cwd out.2 = cwd w ∧ log out.2 = log w
    ∧ (∀ i, Sys.lookup_node (fs out.2) (cwd w ++ take i names) = Some Dir)
    ∧ (∀ q, (∀ i, q ≠ cwd w ++ take i names) →
            Sys.lookup_node (fs out.2) q = Sys.lookup_node (fs w) q).
Proof.
  induction names as [|c ns IH] using rev_ind; [done |].
  intros fuel w _ Hall Hfuel Hcwd Hfile.
  rewrite forallb_app in Hall. apply andb_true_iff in Hall as [Hns Hc].
  cbn [forallb] in Hc. rewrite andb_true_r in Hc.
  pose proof (posixpath_split_join ns c Hns Hc) as Hsplit.
  pose proof (plain_name_inv c Hc) as (Hc1 & _ & Hc2 & _).
  assert (forallb plain_name (ns ++ [c]) = true) as Hall.
  { rewrite forallb_app, Hns. cbn. by rewrite Hc. }
  assert (∀ i, i ≤ length ns → take i (ns ++ [c]) = take i ns) as Htake.
  { intros i Hi. by apply take_app_le. }
  assert (∀ i, take i ns = take (i `min` length ns) (ns ++ [c])) as Htake'.
  { intros i. rewrite Htake by lia.
    destruct (decide (i ≤ length ns)).
    - by rewrite Nat.min_l.
    - rewrite Nat.min_r by lia. by rewrite !take_ge by lia. }
  assert (String.length (PyStr.join "/" ns) < String.length (PyStr.join "/" (ns ++ [c])))
    as Hshort.
  { eapply makedirs_head_shorter; [exact Hsplit | | exact Hc1].
    by rewrite bool_decide_eq_false_2. }
  destruct fuel as [|fuel]; [lia |]. cbn [makedirs_rec]. rewrite Hsplit.
  rewrite (bool_decide_eq_false_2 (c = "")) by done. cbn zeta.
  assert (∃ w1,
            (if negb (bool_decide (PyStr.join "/" ns = ""))
                && negb (bool_decide (c = ""))
             then do ex <- exists_impl (PyStr.join "/" ns);
                  if ex then ret false
                  else try_except (makedirs_rec fuel (PyStr.join "/" ns))
                         pass_FileExistsError ;;
                       ret (bool_decide (c = "."))
             else ret false)%py w = (Ok false, w1)
            ∧ cwd w1 = cwd w ∧ log w1 = log w
            ∧ (∀ i, i ≤ length ns →
                    Sys.lookup_node (fs w1) (cwd w ++ take i ns) = Some Dir)
            ∧ (∀ q, (∀ i, q ≠ cwd w ++ take i ns) →
                    Sys.lookup_node (fs w1) q = Sys.lookup_node (fs w) q))
    as (w1 & HS & Hcwd1 & Hlog1 & Hdirs1 & Hframe1).
  { destruct (decide (ns = [])) as [->|Hne].
    { exists w. split; [done |]. split; [done |]. split; [done |].
      split; [|done]. intros i _. by rewrite take_nil, app_nil_r. }
    destruct (rstrip_join_plain ns Hns Hne) as [_ Hu].
    destruct (join_plain_relative ns Hns Hne) as [_ Hrel].
    rewrite (bool_decide_eq_false_2 (PyStr.join "/" ns = "")),
      (bool_decide_eq_false_2 (c = "")) by done.
    cbn [negb andb]. rewrite bind_cases. unfold exists_impl.
    destruct (Sys.stat (fs w) (cwd w) (PyStr.join "/" ns)) as [e|n] eqn:Es.
    - assert (∀ i data,
                Sys.lookup_node (fs w) (cwd w ++ take i ns) ≠ Some (File data))
        as Hfile'.
      { intros i data. rewrite Htake'. apply Hfile. }
      destruct (IH fuel w Hne Hns ltac:(lia) Hcwd Hfile')
        as (Hout & Hc' & Hl' & Hd' & Hf').
      rewrite bind_cases. unfold try_except.
      destruct (makedirs_rec fuel (PyStr.join "/" ns) w) as [r w1].
      cbn [fst snd] in *. exists w1.
      destruct Hout as [-> | [file ->]]; cbn [pass_FileExistsError];
        (split; [unfold ret; by rewrite bool_decide_eq_false_2 | eauto]).
    - apply stat_inr in Es as (p & Hp & Hn). unfold Sys.resolve in Hp.
      rewrite bool_decide_eq_false_2 in Hp by done.
      rewrite Hrel, split_join_plain in Hp by done.
      apply walk_plain_inv in Hp as [-> Hd]; [|done].
      destruct n as [data|].
      { exfalso. apply (Hfile (length ns) data).
        by rewrite take_app_length. }
      exists w. split; [done |]. split; [done |]. split; [done |].
      split; [|done]. intros i Hi.
      destruct (decide (i = length ns)) as [->|]; [|apply Hd; lia].
      by rewrite take_ge. }
  rewrite bind_cases, HS.
  destruct (join_plain_relative (ns ++ [c]) Hall ltac:(by destruct ns))
    as [Hname Hrel].
  unfold mkdir_impl, lift_fs, Sys.mkdir, Sys.resolve_create.
  rewrite bool_decide_eq_false_2 by done.
  rewrite Hrel, split_join_plain, drop_trailing_empty_snoc, Hcwd1
    by (done || by destruct ns).
  rewrite walk_plain; [|done |].
  2:{ intros i Hi. rewrite length_app in Hi. cbn in Hi.
      rewrite Htake by lia. apply Hdirs1. lia. }
  assert (cwd w ++ ns ++ [c] ≠ []) as Hkey by (by destruct (cwd w), ns).
  assert (∀ i, cwd w ++ ns ++ [c] ≠ cwd w ++ take i ns) as Hnew.
  { intros i Heq%app_inv_head. apply (f_equal length) in Heq.
    rewrite length_app, length_take in Heq. cbn in Heq. lia. }
  assert (∀ i, ¬ i ≤ length ns → take i (ns ++ [c]) = ns ++ [c]) as Hlast.
  { intros i Hi. apply take_ge. rewrite length_app. cbn. lia. }
  rewrite Hframe1 by done.
  destruct (Sys.lookup_node (fs w) (cwd w ++ ns ++ [c])) as [[data|]|] eqn:El.
  - exfalso. apply (Hfile (S (length ns)) data). by rewrite Hlast by lia.
  - cbn [fst snd]. split; [eauto |]. split; [done |]. split; [done |]. split.
    + intros i. destruct (decide (i ≤ length ns)).
      * rewrite Htake by done. by apply Hdirs1.
      * rewrite Hlast by done. by rewrite Hframe1.
    + intros q Hq. apply Hframe1. intros i. rewrite Htake'. apply Hq.
  - cbn [fst snd fs cwd log set_fs]. split; [eauto |]. split; [done |].
    split; [done |]. split.
    + intros i. rewrite lookup_node_insert by done.
      destruct (decide (i ≤ length ns)).
      * rewrite Htake by done. rewrite decide_False by apply Hnew.
        by apply Hdirs1.
      * rewrite Hlast by done. by rewrite decide_True.
    + intros q Hq. rewrite lookup_node_insert by done.
      rewrite decide_False.
      * apply Hframe1. intros i. rewrite Htake'. apply Hq.
      * intros Heq. apply (Hq (S (length ns))). by rewrite Hlast by lia.
Qed.

Lemma join_split (s : string) : PyStr.join "/" (PyStr.split "/" s) = s.
Proof.
  induction s as [|a s IH]; [done |]. rewrite split_unfold.
  destruct (split_cons "/" s) as (h & t & Hs). rewrite Hs in IH |- *.
  destruct (Ascii.eqb_spec a "/") as [->|_].
  - by rewrite join_cons2, IH.
  - destruct t as [|y l]; [cbn in *; by rewrite IH |].
    rewrite join_cons2, app_cons. rewrite join_cons2 in IH. by rewrite IH.
Qed.

(** X13: [maybe_makedirs] on a relative path of plain names, none of which
    is a file on the way down from the working directory, returns; after it
    every directory of the chain exists, those that were missing having been
    created, whether or not the last one was there already; and no other node
    of the file system has changed, nor the working directory. *)
Theorem maybe_makedirs_creates_chain (path : string) (names : list string)
    (w : World) :
  PyStr.split "/" (normpath path) = names →
  forallb plain_name names = true →
  Sys.lookup_node (fs w) (cwd w) = Some Dir →
  (∀ i data,
     Sys.lookup_node (fs w) (cwd w ++ take i names) ≠ Some (File data)) →
  (maybe_makedirs path w).1 = Ok tt
  ∧ cwd (maybe_makedirs path w).2 = cwd w
  ∧ (∀ i, Sys.lookup_node (fs (maybe_makedirs path w).2)
            (cwd w ++ take i names) = Some Dir)
  ∧ (∀ q, (∀ i, q ≠ cwd w ++ take i names) →
          Sys.lookup_node (fs (maybe_makedirs path w).2) q
          = Sys.lookup_node (fs w) q).
Proof.
  intros Hsplit Hplain Hcwd Hfile.
  assert (names ≠ []) as Hne by (rewrite <-Hsplit; apply split_nonempty).
  assert (normpath path = PyStr.join "/" names) as Hpath
    by (by rewrite <-Hsplit, join_split).
  unfold maybe_makedirs. rewrite print_then.
  unfold try_except, os_makedirs, call, makedirs_impl. rewrite Hpath.
  match goal with
  | |- context [makedirs_rec ?f ?n ?w1] =>
      pose proof (makedirs_rec_chain names f w1 Hne Hplain ltac:(lia) Hcwd Hfile)
        as (Hout & Hc & _ & Hd & Hf);
      destruct (makedirs_rec f n w1) as [r w2]
  end.
  cbn [fst snd fs cwd log_event] in *.
  destruct Hout as [-> | [file ->]]; [done |].
  by rewrite bool_decide_eq_false_2 by (by intros ?).
Qed.

Lemma maybe_makedirs_creates_chain_witness :
  (maybe_makedirs "xgboost4j/src/main//resources/lib/linux/x86_64"
     (set_cwd ["repo"; "jvm-packages"] sample_world)).1 = Ok tt
  ∧ Sys.lookup_node
      (fs (maybe_makedirs "xgboost4j/src/main//resources/lib/linux/x86_64"
             (set_cwd ["repo"; "jvm-packages"] sample_world)).2)
      ["repo"; "jvm-packages"; "xgboost4j"; "src"; "main"; "resources"; "lib";
       "linux"; "x86_64"]
    = Some Dir.
Proof.
  assert (∀ i data,
            Sys.lookup_node sample_fs
              (["repo"; "jvm-packages"]
               ++ take i ["xgboost4j"; "src"; "main"; "resources"; "lib";
                          "linux"; "x86_64"])
            ≠ Some (File data)) as Hfile.
  { intros i data. do 8 (destruct i as [|i]; [by vm_compute |]).
    by vm_compute. }
  pose proof (maybe_makedirs_creates_chain
                "xgboost4j/src/main//resources/lib/linux/x86_64"
                ["xgboost4j"; "src"; "main"; "resources"; "lib"; "linux";
                 "x86_64"]
                (set_cwd ["repo"; "jvm-packages"] sample_world)
                eq_refl eq_refl eq_refl Hfile) as (H1 & _ & H3 & _).
  split; [exact H1 | exact (H3 7)].
Defined.

(** ** What a run copies and executes *)

Lemma only_allowed_refl (env : Env) (w : World) : only_allowed env w w.
Proof. exists []. by rewrite app_nil_r. Qed.

Lemma only_allowed_trans (env : Env) (a b c : World) :
  only_allowed env a b → only_allowed env b c → only_allowed env a c.
Proof.
  intros (e1 & E1 & H1) (e2 & E2 & H2). exists (e1 ++ e2). split.
  - by rewrite E2, E1, app_assoc.
  - by rewrite forallb_app, H1, H2.
Qed.

Ltac allowed_side :=
  solve [exact (only_allowed_refl _) | exact (only_allowed_trans _)].

Lemma allowed_events (env : Env) {A} (m : M A) (evs : list event) :
  (∀ w, log (m w).2 = log w ++ evs) →
  forallb (allowed_event env) evs = true →
  preserves (only_allowed env) m.
Proof. intros Hm He w. by exists evs. Qed.

Lemma allowed_call (env : Env) {A} (ev : event) (m : M A) :
  allowed_event env ev = true → preserves same_log m →
  preserves (only_allowed env) (call ev m).
Proof.
  intros He Hm. apply (allowed_events env _ [ev]).
  - intros w. by apply log_call.
  - cbn. by rewrite He.
Qed.

Lemma allowed_print (env : Env) (line : string) :
  preserves (only_allowed env) (print line).
Proof. unfold print. apply allowed_call; [done | preserves_step]. Qed.

Lemma allowed_maybe_makedirs (env : Env) (path : string) :
  preserves (only_allowed env) (maybe_makedirs path).
Proof. by apply (allowed_events env _ _ (maybe_makedirs_log path)). Qed.

Lemma allowed_retrieve (env : Env) (url filename : string) :
  preserves (only_allowed env) (retrieve env url filename).
Proof. by apply (allowed_events env _ _ (retrieve_log env url filename)). Qed.

Lemma allowed_run (env : Env) (command : string) :
  command ∈ [sys_executable env +:+ " mapfeat.py";
             sys_executable env +:+ " mknfold.py machine.txt 1"] →
  preserves (only_allowed env) (run env command).
Proof.
  intros H. apply (allowed_events env _ _ (run_log env command)).
  cbn. by rewrite bool_decide_eq_true_2.
Qed.

Lemma allowed_cp (env : Env) (source target : string) :
  allowed_copy (normpath source) (normpath target) = true →
  preserves (only_allowed env) (cp source target).
Proof.
  intros H. apply (allowed_events env _ _ (cp_log source target)).
  cbn. by rewrite H.
Qed.

Lemma allowed_cd (env : Env) {A} (path : string) (body : string → M A) :
  (∀ p, preserves (only_allowed env) (body p)) →
  preserves (only_allowed env) (cd path body).
Proof.
  intros H. unfold cd.
  apply preserves_bind; [allowed_side .. | | intros c].
  { unfold os_getcwd. apply allowed_call; [done | auto]. }
  apply preserves_bind; [allowed_side .. | | intros _].
  { unfold os_chdir. apply allowed_call; [done | apply os_chdir_same_log_inner]. }
  apply preserves_bind; [allowed_side .. | apply allowed_print | intros _].
  apply preserves_try_finally; [allowed_side .. | apply H |].
  unfold os_chdir. apply allowed_call; [done | apply os_chdir_same_log_inner].
Qed.

Lemma allowed_with_TemporaryDirectory (env : Env) {A} (body : string → M A) :
  (∀ name, preserves (only_allowed env) (body name)) →
  preserves (only_allowed env) (with_TemporaryDirectory env body).
Proof.
  intros H. unfold with_TemporaryDirectory.
  apply preserves_bind; [allowed_side .. | | intros name].
  { apply (allowed_call env Mkdtemp); [done |].
    apply mkdtemp_loop_preserves; rel_side. }
  apply preserves_try_finally; [allowed_side .. | apply H |].
  apply (allowed_call env (Cleanup _)); [done |]. intros w. unfold rmtree_impl.
  destruct (Sys.resolve _ _ _) as [[]|p]; try done.
  by destruct (Sys.lookup_node _ _) as [[]|].
Qed.

(** A step whose result is known to satisfy [Q]. *)
Lemma preserves_bind_post (R : World → World → Prop) {A B} (m : M A)
    (k : A → M B) (Q : A → Prop) :
  (∀ w, R w w) → (∀ a b c, R a b → R b c → R a c) →
  preserves R m → (∀ w a w', m w = (Ok a, w') → Q a) →
  (∀ a, Q a → preserves R (k a)) → preserves R (bind m k).
Proof.
  intros Hrefl Htrans Hm HQ Hk w. unfold bind. specialize (Hm w).
  destruct (m w) as [[a|e] w1] eqn:E; [|done].
  eapply Htrans; [exact Hm | by eapply Hk, HQ].
Qed.

(** What [glob] returns: names of the directory part that match the last
    component, joined to the directory part. *)
Lemma glob_glob_post (pathname : string) (w w' : World) (files : list string) :
  glob_glob pathname w = (Ok files, w') →
  ∀ f, f ∈ files →
       ∃ x, f = posixpath.join (posixpath.split pathname).1 [x]
            ∧ fnmatch (posixpath.split pathname).2 x = true.
Proof.
  unfold glob_glob, call. destruct (posixpath.split pathname) as [d b].
  intros [= <- _] f Hf. apply list_elem_of_In, in_map_iff in Hf
    as (x & <- & Hx%list_elem_of_In).
  apply list_elem_of_filter in Hx as [Hx _]. eauto.
Qed.

(** A pattern that starts with literal characters matches names that start
    with them only. *)
Lemma fnmatch_literal (lit pat x : string) :
  PyStr.contains_char "*" lit = false → PyStr.contains_char "?" lit = false →
  fnmatch (lit +:+ pat) x = true → ∃ rest, x = lit +:+ rest.
Proof.
  revert x. induction lit as [|c lit IH]; intros x; [by exists x |].
  cbn [PyStr.contains_char]. intros [Hs Hl]%orb_false_iff [Hq Hl']%orb_false_iff.
  rewrite app_cons. cbn [fnmatch]. rewrite Hs.
  destruct x as [|d x]; [done |]. rewrite Hq. cbn [orb].
  intros [Hd Hx]%andb_true_iff. apply Ascii.eqb_eq in Hd as ->.
  destruct (IH x Hl Hl' Hx) as [rest ->]. by exists rest.
Qed.

Lemma allowed_glob_glob (env : Env) (pathname : string) :
  preserves (only_allowed env) (glob_glob pathname).
Proof.
  unfold glob_glob. apply allowed_call; [done |]. intros w.
  by destruct (posixpath.split pathname).
Qed.

Lemma allowed_copy_tracker (env : Env) :
  preserves (only_allowed env) copy_tracker.
Proof.
  unfold copy_tracker. apply preserves_for_each; [allowed_side .. |].
  intros []; apply allowed_cp; by vm_compute.
Qed.

Lemma allowed_agaricus (rest dst : string) :
  dst ∈ test_resource_dirs →
  allowed_copy (normpath ("../demo/data/agaricus." +:+ rest)) dst = true.
Proof.
  intros H. unfold allowed_copy. rewrite normpath_squeeze.
  assert (PyStr.startswith "../demo/data/agaricus."
            (squeeze false ("../demo/data/agaricus." +:+ rest)) = true) as ->
    by (by vm_compute).
  rewrite (bool_decide_eq_true_2 _ H).
  cbn [andb]. by rewrite orb_true_r.
Qed.

Lemma allowed_machine (rest dst : string) :
  dst ∈ ["xgboost4j-spark-gpu/src/test/resources";
         "xgboost4j-spark/src/test/resources"] →
  allowed_copy (normpath ("../demo/CLI/regression/machine.txt.t" +:+ rest)) dst
  = true.
Proof.
  intros H. unfold allowed_copy. rewrite normpath_squeeze.
  assert (PyStr.startswith "../demo/CLI/regression/machine.txt.t"
            (squeeze false ("../demo/CLI/regression/machine.txt.t" +:+ rest))
          = true) as -> by (by vm_compute).
  rewrite (bool_decide_eq_true_2 _ H).
  cbn [andb]. by rewrite orb_true_r.
Qed.

Lemma allowed_copy_test_resources (env : Env) :
  preserves (only_allowed env) copy_test_resources.
Proof.
  unfold copy_test_resources. apply preserves_for_each; [allowed_side .. |].
  intros use_cuda.
  apply preserves_bind; [allowed_side .. | apply allowed_maybe_makedirs | intros _].
  apply preserves_bind; [allowed_side .. | apply allowed_maybe_makedirs | intros _].
  apply preserves_bind; [allowed_side .. | | intros _].
  - apply (preserves_bind_post _ _ _
             (λ files, ∀ f, f ∈ files →
                            ∃ rest, f = "../demo/data/agaricus." +:+ rest));
      [allowed_side | allowed_side | apply allowed_glob_glob | |].
    + intros w files w' Hg f Hf.
      destruct (glob_glob_post _ _ _ _ Hg f Hf) as (x & -> & Hx).
      apply (fnmatch_literal "agaricus." "*") in Hx as [rest ->]; [|done..].
      by exists rest.
    + intros files Hfiles. induction files as [|f files IH]; cbn [for_each].
      { apply preserves_ret; allowed_side. }
      destruct (Hfiles f ltac:(left)) as [rest ->].
      apply preserves_bind; [allowed_side .. | | intros _].
      * apply preserves_bind; [allowed_side .. | | intros _];
          apply allowed_cp, allowed_agaricus; destruct use_cuda;
          by vm_compute; set_solver.
      * apply IH. intros g Hg. apply Hfiles. by right.
  - apply (preserves_bind_post _ _ _
             (λ files, ∀ f, f ∈ files →
                ∃ rest, f = "../demo/CLI/regression/machine.txt.t" +:+ rest));
      [allowed_side | allowed_side | apply allowed_glob_glob | |].
    + intros w files w' Hg f Hf.
      destruct (glob_glob_post _ _ _ _ Hg f Hf) as (x & -> & Hx).
      apply (fnmatch_literal "machine.txt.t" "*") in Hx as [rest ->]; [|done..].
      by exists rest.
    + intros files Hfiles. induction files as [|f files IH]; cbn [for_each].
      { apply preserves_ret; allowed_side. }
      destruct (Hfiles f ltac:(left)) as [rest ->].
      apply preserves_bind; [allowed_side .. | | intros _].
      * apply allowed_cp, allowed_machine; destruct use_cuda;
          vm_compute; set_solver.
      * apply IH. intros g Hg. apply Hfiles. by right.
Qed.

Ltac allowed_step :=
  lazymatch goal with
  | |- preserves _ (ret _) => apply preserves_ret; allowed_side
  | |- preserves _ (print _) => apply allowed_print
  | |- preserves _ (maybe_makedirs _) => apply allowed_maybe_makedirs
  | |- preserves _ (retrieve _ _ _) => apply allowed_retrieve
  | |- preserves _ (for_each _ _) =>
      apply preserves_for_each; [allowed_side .. | intros ?]
  | |- preserves _ (bind _ _) =>
      apply preserves_bind; [allowed_side .. | | intros ?]
  | |- preserves _ _ => progress cbn beta iota zeta
  end.

Lemma allowed_make_native_dirs (env : Env) :
  preserves (only_allowed env) make_native_dirs.
Proof. unfold make_native_dirs. cbn [for_each]. repeat allowed_step. Qed.

Lemma allowed_download_native (env : Env) (git_branch commit_hash : string) :
  preserves (only_allowed env) (download_native env git_branch commit_hash).
Proof. unfold download_native. repeat allowed_step. Qed.

Lemma allowed_next_steps (env : Env) : preserves (only_allowed env) next_steps.
Proof. unfold next_steps. repeat allowed_step. Qed.

Lemma allowed_gpu_jar (env : Env) (version : string) :
  preserves (only_allowed env) (gpu_jar env version).
Proof.
  unfold gpu_jar. apply allowed_with_TemporaryDirectory. intros tempdir.
  unfold gpu_jar_body.
  apply preserves_bind; [allowed_side .. | apply allowed_retrieve | intros _].
  apply preserves_bind; [allowed_side .. | | intros _].
  { unfold os_mkdir. apply allowed_call; [done | auto]. }
  apply preserves_bind; [allowed_side .. | | intros _].
  { apply preserves_bind; [allowed_side .. | | intros members].
    - unfold zipfile_ZipFile. apply allowed_call; [done |].
      preserves_step; [unfold read_impl; auto |].
      destruct (unzip env a); preserves_step.
    - unfold extractall. apply allowed_call; [done |]. preserves_step.
      apply extract_member_preserves; rel_side. }
  apply allowed_cp. unfold allowed_copy.
  by rewrite (bool_decide_eq_true_2 (normpath _ = gpu_binary)) by (by vm_compute).
Qed.

Lemma allowed_in_jvm_packages (env : Env)
    (version git_branch commit_hash : string) :
  preserves (only_allowed env)
    (in_jvm_packages env version git_branch commit_hash).
Proof.
  unfold in_jvm_packages.
  apply preserves_bind; [allowed_side .. | apply allowed_print | intros _].
  apply preserves_bind; [allowed_side .. | apply allowed_copy_tracker | intros _].
  apply preserves_bind; [allowed_side .. | apply allowed_print | intros _].
  apply preserves_bind; [allowed_side .. | | intros _].
  { apply allowed_cd. intros _.
    apply preserves_bind; [allowed_side .. | | intros _];
      apply allowed_run; set_solver. }
  apply preserves_bind;
    [allowed_side .. | apply allowed_copy_test_resources | intros _].
  apply preserves_bind; [allowed_side .. | apply allowed_print | intros _].
  apply preserves_bind;
    [allowed_side .. | apply allowed_make_native_dirs | intros _].
  apply preserves_bind; [allowed_side .. | apply allowed_print | intros _].
  apply preserves_bind;
    [allowed_side .. | apply allowed_download_native | intros _].
  apply allowed_gpu_jar.
Qed.

(** X14: on every run of [main], whatever its arguments and however it
    ends, the only commands [run] executes are the two fixture scripts of the
    regression demo, under the interpreter that runs the script itself; the
    only programs whose output is read are the two queries to git; and the
    only copies are: the tracker into the resources of the two packages,
    files [agaricus.*] of the demo data into the test resources of the four
    packages, files [machine.txt.t*] of the regression demo into those of the
    two Spark packages, and a file onto the place of the extracted binary. *)
Theorem main_only_allowed (env : Env) (argv : list string) (w : World) :
  only_allowed env w (main env argv w).2.
Proof.
  revert w. change (preserves (only_allowed env) (main env argv)).
  unfold main.
  apply preserves_bind; [allowed_side .. | | intros version].
  { intros w. rewrite parse_args_world. apply only_allowed_refl. }
  apply preserves_bind; [allowed_side .. | | intros commit_hash].
  { intros w. rewrite get_current_commit_hash_world.
    exists [CheckOutput ["git"; "rev-parse"; "HEAD"]]. split; [done |].
    by vm_compute. }
  apply preserves_bind; [allowed_side .. | | intros git_branch].
  { intros w. rewrite get_current_git_branch_world.
    exists [CheckOutput git_log_argv]. split; [done |]. by vm_compute. }
  apply preserves_bind; [allowed_side .. | apply allowed_print | intros _].
  apply preserves_bind;
    [allowed_side .. | | intros _; apply allowed_next_steps].
  apply allowed_cd. intros _. apply allowed_in_jvm_packages.
Qed.

(** ** Leaving [cd] when the way back is gone *)

(** X15: when the directory [cd] was called in cannot be entered any more
    at the time the block is left (the body has removed it, say), [cd] raises
    the [OSError] of that [chdir], whether the body returned or raised: the
    body's own outcome is lost, and the working directory stays where the
    body left it. *)
Theorem cd_cannot_return {A} (path : string) (body : string → M A) (w : World)
    (p : list string) (e : errno) :
  Sys.lookup_node (fs w) (cwd w) = Some Dir →
  Sys.chdir (fs w) (cwd w) (normpath path) = inr p →
  let w1 := log_event (Print ("cd " +:+ normpath path))
              (set_cwd p (log_event (Chdir (normpath path))
                            (log_event Getcwd w))) in
  let w2 := (body (normpath path) w1).2 in
  Sys.chdir (fs w2) (cwd w2) (Sys.path_string (cwd w)) = inl e →
  (cd path body w).1 = Raise (OSError e (Sys.path_string (cwd w)))
  ∧ cwd (cd path body w).2 = cwd w2
  ∧ fs (cd path body w).2 = fs w2.
Proof.
  intros Hcwd Hin w1 w2 Hback.
  assert (os_getcwd w = (Ok (Sys.path_string (cwd w)), log_event Getcwd w))
    as Hg.
  { unfold os_getcwd, call, lift_read, Sys.getcwd. cbn [fs cwd log_event].
    by rewrite Hcwd. }
  assert (os_chdir (normpath path) (log_event Getcwd w)
          = (Ok tt, set_cwd p (log_event (Chdir (normpath path))
                                 (log_event Getcwd w)))) as Hc.
  { rewrite os_chdir_unfold. cbn [fs cwd log_event]. by rewrite Hin. }
  rewrite (cd_entered path body _ _ _ _ Hg Hc). fold w1.
  unfold try_finally. subst w2. destruct (body (normpath path) w1) as [r w2].
  cbn [snd] in Hback. rewrite os_chdir_unfold. cbn [fs cwd log_event].
  by rewrite Hback.
Qed.

Lemma cd_cannot_return_witness :
  (cd "jvm-packages/" (λ _, rmtree_impl "/repo") sample_world).1
  = Raise (OSError ENOENT "/repo")
  ∧ cwd (cd "jvm-packages/" (λ _, rmtree_impl "/repo") sample_world).2
    = ["repo"; "jvm-packages"].
Proof.
  pose proof (cd_cannot_return "jvm-packages/" (λ _, rmtree_impl "/repo")
                sample_world ["repo"; "jvm-packages"] ENOENT
                eq_refl eq_refl) as H.
  cbv zeta in H. specialize (H ltac:(vm_compute; reflexivity)).
  destruct H as (H1 & H2 & _). split; [exact H1 | exact H2].
Defined.
